(** * convert_dataset.py: lifecycle timestamps for pipe-delimited CSV files

    A shallow embedding of [src/convert_dataset.py] and the properties of
    its date arithmetic, row transcription and command shell.

    Conventions of the embedding.
    - Python [int] is [Z]; [%] is [Z.modulo] (the sign follows the divisor,
      as in Python).
    - Python [str] is [string]. Characters are 8-bit, the code points 0 to
      255; among them the digit class [\d] and the digits of [int()] are
      the ASCII digits.
    - A tuple of integers is a [list Z] (its length is not fixed by the
      code: [get_range_input] builds tuples of any length).
    - The process-wide random generator is a tape of raw draws with a
      cursor; [random.randint a b] reads one cell and maps it into [a..b].
      Quantifying over all tapes covers every outcome of the generator.
    - Exceptions and [sys.exit] are results of a state-and-error monad over
      the world (file system, standard streams, generator, [sys.argv]).
    - A file holds the rows that [csv.reader] yields from it and that
      [csv.writer] was given; paths are compared as they are written. The
      rows of a file are those it has when it is opened, which is what the
      reader sees when the output file is another file than the input.
    - [calendar.monthrange] is taken as it is for every year (outside
      1..9999 the library maps the year into that span before it looks up
      the weekday, which the code does not use). *)

From Stdlib Require Import ZArith Lia List Ascii Bool.
From stdpp Require Import base option list gmap strings.
Import ListNotations.

Local Open Scope Z_scope.

(** ** Strings *)

Module Str.

Definition is_digit (c : ascii) : bool :=
  let n := nat_of_ascii c in (48 <=? n)%nat && (n <=? 57)%nat.

Definition digit_val (c : ascii) : Z := Z.of_nat (nat_of_ascii c) - 48.

Definition digit_char (d : Z) : ascii := ascii_of_nat (48 + Z.to_nat d).

(** [str.isspace] on one 8-bit character: TAB..CR, FS..US, SPACE, NEL
    (133) and NO-BREAK SPACE (160). This is what [str.strip] removes. *)
Definition is_space (c : ascii) : bool :=
  let n := nat_of_ascii c in
  ((9 <=? n)%nat && (n <=? 13)%nat) || ((28 <=? n)%nat && (n <=? 32)%nat)
  || (n =? 133)%nat || (n =? 160)%nat.

(** The white space that [int()] skips around a number: TAB..CR and SPACE,
    and NEL and NO-BREAK SPACE, which it first turns into spaces; not
    FS..US. *)
Definition is_int_space (c : ascii) : bool :=
  let n := nat_of_ascii c in
  ((9 <=? n)%nat && (n <=? 13)%nat) || (n =? 32)%nat
  || (n =? 133)%nat || (n =? 160)%nat.

Fixpoint all (p : ascii → bool) (s : string) : bool :=
  match s with
  | EmptyString => true
  | String c s' => p c && all p s'
  end.

(** [s[n:]] *)
Fixpoint drop (n : nat) (s : string) : string :=
  match n, s with
  | O, _ => s
  | S n', String _ s' => drop n' s'
  | S _, EmptyString => EmptyString
  end.

(** [s[:n]] *)
Fixpoint take (n : nat) (s : string) : string :=
  match n, s with
  | S n', String c s' => String c (take n' s')
  | _, _ => EmptyString
  end.

Fixpoint repeat (c : ascii) (n : nat) : string :=
  match n with
  | O => EmptyString
  | S n' => String c (repeat c n')
  end.

Definition ends_with (suffix s : string) : Prop := ∃ pre, s = pre +:+ suffix.

Definition starts_with (prefix s : string) : Prop := ∃ post, s = prefix +:+ post.

Fixpoint endswith (s suffix : string) : bool :=
  String.eqb s suffix ||
  match s with
  | EmptyString => false
  | String _ s' => endswith s' suffix
  end.

(** Removing the leading, the trailing and both runs of the characters
    that satisfy [p]. *)
Fixpoint lstrip_by (p : ascii → bool) (s : string) : string :=
  match s with
  | String c s' => if p c then lstrip_by p s' else s
  | EmptyString => EmptyString
  end.

Definition rstrip_by (p : ascii → bool) (s : string) : string :=
  String.rev (lstrip_by p (String.rev s)).

Definition strip_by (p : ascii → bool) (s : string) : string :=
  rstrip_by p (lstrip_by p s).

(** [s.strip()] *)
Definition strip (s : string) : string := strip_by is_space s.

(** [A]..[Z], and the capital letters 192..222 apart from the
    multiplication sign 215, have their small letter 32 places on. *)
Definition lower_char (c : ascii) : ascii :=
  let n := nat_of_ascii c in
  if ((65 <=? n)%nat && (n <=? 90)%nat)
     || ((192 <=? n)%nat && (n <=? 222)%nat && negb (n =? 215)%nat)
  then ascii_of_nat (n + 32) else c.

(** [s.lower()] *)
Fixpoint lower (s : string) : string :=
  match s with
  | EmptyString => EmptyString
  | String c s' => String (lower_char c) (lower s')
  end.

(** [s.split(sep)] for a one-character separator: never empty. *)
Fixpoint split (sep : ascii) (s : string) : list string :=
  match s with
  | EmptyString => [EmptyString]
  | String c s' =>
      if Ascii.eqb c sep then EmptyString :: split sep s'
      else match split sep s' with
           | w :: ws => String c w :: ws
           | [] => [String c EmptyString]
           end
  end.

(** Decimal digits of a non-negative integer, most significant first.
    The fuel bounds the number of digits. *)
Fixpoint digits (fuel : nat) (n : Z) : string :=
  match fuel with
  | O => EmptyString
  | S f =>
      if n <? 10 then String (digit_char n) EmptyString
      else digits f (n / 10) +:+ String (digit_char (n mod 10)) EmptyString
  end.

Definition of_nonneg (n : Z) : string := digits (S (Z.to_nat (Z.log2 n))) n.

(** [str(n)], also [f"{n}"] *)
Definition of_int (n : Z) : string :=
  if n <? 0 then String "-" (of_nonneg (- n)) else of_nonneg n.

Definition zfill (width : nat) (ds : string) : string :=
  repeat "0" (width - String.length ds) +:+ ds.

(** [f"{n:02d}"]: sign-aware zero padding to width 2. *)
Definition format_02d (n : Z) : string :=
  if n <? 0 then String "-" (zfill 1 (of_nonneg (- n)))
  else zfill 2 (of_nonneg n).

(** Digits with single underscores between them, as [int()] reads them. *)
Fixpoint digits_val (acc : Z) (after_underscore : bool) (s : string) : option Z :=
  match s with
  | EmptyString => if after_underscore then None else Some acc
  | String c s' =>
      if is_digit c then digits_val (10 * acc + digit_val c) false s'
      else if Ascii.eqb c "_" && negb after_underscore then digits_val acc true s'
      else None
  end.

Definition unsigned_val (s : string) : option Z :=
  match s with
  | String c s' => if is_digit c then digits_val (digit_val c) false s' else None
  | EmptyString => None
  end.

(** [int(s)]; [None] stands for [ValueError]. *)
Definition to_int (s : string) : option Z :=
  match strip_by is_int_space s with
  | String c r =>
      if Ascii.eqb c "+" then unsigned_val r
      else if Ascii.eqb c "-" then Z.opp <$> unsigned_val r
      else unsigned_val (String c r)
  | EmptyString => None
  end.

(** [repr] of a tuple of integers: [()], [(5,)], [(5, 10)]. *)
Fixpoint join_comma (l : list Z) : string :=
  match l with
  | [] => EmptyString
  | [x] => of_int x
  | x :: l' => of_int x +:+ ", " +:+ join_comma l'
  end.

Definition repr_tuple (t : list Z) : string :=
  match t with
  | [x] => "(" +:+ of_int x +:+ ",)"
  | _ => "(" +:+ join_comma t +:+ ")"
  end.

End Str.

(** ** Calendar arithmetic *)

Definition is_leap_year (year : Z) : bool :=
  ((year mod 4 =? 0) && negb (year mod 100 =? 0)) || (year mod 400 =? 0).

(** The standard [calendar] module: [mdays], [isleap] and the day count
    that [monthrange(year, month)[1]] returns. [None] stands for the
    library's [IllegalMonthError], a [ValueError]. *)
Module calendar.

Definition mdays : list Z := [0; 31; 28; 31; 30; 31; 30; 31; 31; 30; 31; 30; 31].

Definition isleap (year : Z) : bool :=
  (year mod 4 =? 0) && (negb (year mod 100 =? 0) || (year mod 400 =? 0)).

Definition monthrange_ndays (year month : Z) : option Z :=
  if (1 <=? month) && (month <=? 12) then
    Some (nth (Z.to_nat month) mdays 0
          + (if (month =? 2) && isleap year then 1 else 0))
  else None.

End calendar.

(** ** The timestamp pattern and [re.search] *)

Inductive atom : Type :=
  | Digit                (* \d *)
  | Chr (c : ascii).     (* a literal character *)

Definition atom_matches (a : atom) (c : ascii) : bool :=
  match a with
  | Digit => Str.is_digit c
  | Chr c' => Ascii.eqb c c'
  end.

(** [(\d{4})-(\d{2})-(\d{2})T(\d{2}:\d{2}:\d{2}\.\d{3}\+\d{4})]: every atom
    consumes exactly one character, so a match is 28 characters long and
    the groups are fixed slices of it. *)
Definition pattern : list atom :=
  [Digit; Digit; Digit; Digit; Chr "-"; Digit; Digit; Chr "-"; Digit; Digit; Chr "T";
   Digit; Digit; Chr ":"; Digit; Digit; Chr ":"; Digit; Digit; Chr ".";
   Digit; Digit; Digit; Chr "+"; Digit; Digit; Digit; Digit].

(** The text matched by [p] at the start of [s], if any. *)
Fixpoint match_here (p : list atom) (s : string) : option string :=
  match p with
  | [] => Some EmptyString
  | a :: p' =>
      match s with
      | String c s' =>
          if atom_matches a c then String c <$> match_here p' s' else None
      | EmptyString => None
      end
  end.

Record Match : Type := { m_start : nat; m_text : string }.

(** [re.search]: the first position, scanning left to right, at which the
    pattern matches. *)
Fixpoint search_from (p : list atom) (pos : nat) (s : string) : option Match :=
  match match_here p s with
  | Some t => Some {| m_start := pos; m_text := t |}
  | None =>
      match s with
      | String _ s' => search_from p (S pos) s'
      | EmptyString => None
      end
  end.

Definition re_search (p : list atom) (s : string) : option Match := search_from p 0 s.

(** [match.group(1)] and [match.group(4)] for [pattern]. *)
Definition group1 (m : Match) : string := Str.take 4 (m_text m).
Definition group4 (m : Match) : string := Str.drop 11 (m_text m).

(** ** The world and its monad *)

Inductive exn : Type :=
  | ValueError
  | TypeError
  | StopIteration
  | EOFError
  | FileNotFoundError
  | FileExistsError
  | IsADirectoryError
  | NotADirectoryError
  | SystemExit (code : Z).

Inductive result (A : Type) : Type :=
  | Ok (a : A)
  | Raise (e : exn).
Arguments Ok {A} a.
Arguments Raise {A} e.

Definition row : Type := list string.

Inductive node : Type :=
  | File (rows : list row)
  | Dir.

(** What the program writes to standard output. The text of an exception
    is left abstract: [Error processing '<file>': <e>] is [PrintError]. *)
Inductive output : Type :=
  | Print (line : string)
  | Prompt (text : string)
  | PrintError (input_file : string) (e : exn).

Record World : Type := {
  fs : gmap string node;
  stdout : list output;
  stdin : list string;
  tape : nat → Z;
  cursor : nat;
  argv : list string
}.

Definition M (A : Type) : Type := World → result A * World.

Definition ret {A} (a : A) : M A := λ w, (Ok a, w).

Definition raise {A} (e : exn) : M A := λ w, (Raise e, w).

Definition bind {A B} (c : M A) (k : A → M B) : M B :=
  λ w, match c w with
       | (Ok a, w') => k a w'
       | (Raise e, w') => (Raise e, w')
       end.

Notation "x <- c ;; k" := (bind c (λ x, k))
  (at level 20, c at level 99, k at level 200, only parsing).
Notation "c ;;; k" := (bind c (λ _, k))
  (at level 100, k at level 200, right associativity, only parsing).

(** [try: c except Exception as e: h e]. [SystemExit] is not an
    [Exception] and passes through. *)
Definition try_except {A} (c : M A) (h : exn → M A) : M A :=
  λ w, match c w with
       | (Raise (SystemExit n), w') => (Raise (SystemExit n), w')
       | (Raise e, w') => h e w'
       | r => r
       end.

(** The exit status of the process: 0 after a normal return, the code of
    [sys.exit], 1 after an uncaught exception. *)
Definition exit_status {A} (r : result A) : Z :=
  match r with
  | Ok _ => 0
  | Raise (SystemExit n) => n
  | Raise _ => 1
  end.

(** ** Library operations on the world *)

Definition with_fs (f : gmap string node → gmap string node) (w : World) : World :=
  {| fs := f (fs w); stdout := stdout w; stdin := stdin w;
     tape := tape w; cursor := cursor w; argv := argv w |}.

Definition emit (o : output) : M unit :=
  λ w, (Ok tt,
        {| fs := fs w; stdout := stdout w ++ [o]; stdin := stdin w;
           tape := tape w; cursor := cursor w; argv := argv w |}).

(** [print(line)] *)
Definition print (line : string) : M unit := emit (Print line).

(** [input(prompt)]: shows the prompt and reads one line, without its line
    end; [EOFError] when standard input is exhausted. *)
Definition input (prompt : string) : M string :=
  emit (Prompt prompt) ;;;
  λ w, match stdin w with
       | line :: rest =>
           (Ok line,
            {| fs := fs w; stdout := stdout w; stdin := rest;
               tape := tape w; cursor := cursor w; argv := argv w |})
       | [] => (Raise EOFError, w)
       end.

Definition sys_argv : M (list string) := λ w, (Ok (argv w), w).

(** [sys.exit(code)] *)
Definition sys_exit {A} (code : Z) : M A := raise (SystemExit code).

(** [random.randint(a, b)]: [ValueError] on an empty range, otherwise one
    draw mapped into [a..b]. *)
Definition randint (a b : Z) : M Z :=
  λ w, if b <? a then (Raise ValueError, w)
       else (Ok (a + tape w (cursor w) mod (b - a + 1)),
             {| fs := fs w; stdout := stdout w; stdin := stdin w;
                tape := tape w; cursor := S (cursor w); argv := argv w |}).

(** [random.randint( *t )]: the tuple has to supply exactly two arguments. *)
Definition randint_star (t : list Z) : M Z :=
  match t with
  | [a; b] => randint a b
  | _ => raise TypeError
  end.

Module path.

Fixpoint has_slash (s : string) : bool :=
  match s with
  | EmptyString => false
  | String c s' => Ascii.eqb c "/" || has_slash s'
  end.

Fixpoint lstrip_slashes (s : string) : string :=
  match s with
  | String c s' => if Ascii.eqb c "/" then lstrip_slashes s' else s
  | EmptyString => EmptyString
  end.

Definition rstrip_slashes (s : string) : string :=
  String.rev (lstrip_slashes (String.rev s)).

(** [os.path.basename]: what follows the last slash. *)
Fixpoint basename (p : string) : string :=
  match p with
  | EmptyString => EmptyString
  | String c p' =>
      if has_slash p' then basename p'
      else if Ascii.eqb c "/" then p' else p
  end.

(** Everything up to and including the last slash. *)
Fixpoint head (p : string) : string :=
  match p with
  | EmptyString => EmptyString
  | String c p' =>
      if has_slash p' then String c (head p')
      else if Ascii.eqb c "/" then "/" else EmptyString
  end.

(** [os.path.dirname] *)
Definition dirname (p : string) : string :=
  let h := head p in
  match rstrip_slashes h with
  | EmptyString => h
  | d => d
  end.

(** [os.path.join(a, b)] *)
Definition join (a b : string) : string :=
  match b with
  | String "/" _ => b
  | _ =>
      match a with
      | EmptyString => b
      | _ => if Str.endswith a "/" then a +:+ b else a +:+ "/" +:+ b
      end
  end.

(** The directories above [p], nearest first. *)
Fixpoint ancestors (fuel : nat) (p : string) : list string :=
  match fuel with
  | O => []
  | S f =>
      let d := dirname p in
      match rstrip_slashes d with
      | EmptyString => []
      | _ => d :: ancestors f d
      end
  end.

End path.

(** Is [p] (with or without trailing slashes) a directory? The root is. *)
Definition is_dir (m : gmap string node) (p : string) : bool :=
  match p with
  | EmptyString => false
  | _ =>
      match path.rstrip_slashes p with
      | EmptyString => true
      | d => match m !! d with Some Dir => true | _ => false end
      end
  end.

Definition is_file (m : gmap string node) (p : string) : bool :=
  match m !! p with Some (File _) => true | _ => false end.

(** [os.path.exists] *)
Definition os_path_exists (p : string) : M bool :=
  λ w, (Ok (is_file (fs w) p || is_dir (fs w) p), w).

(** [os.makedirs(p, exist_ok=True)]: creates [p] and the directories above
    it; fails when [p] is empty or one of them is a regular file. *)
Definition makedirs (p : string) : M unit :=
  λ w,
    match p with
    | EmptyString => (Raise FileNotFoundError, w)
    | _ =>
        match path.rstrip_slashes p with
        | EmptyString => (Ok tt, w)
        | d =>
            if existsb (is_file (fs w)) (path.ancestors (String.length d) d)
            then (Raise NotADirectoryError, w)
            else if is_file (fs w) d then (Raise FileExistsError, w)
            else (Ok tt,
                  with_fs (λ m, foldr (λ k, <[k := Dir]>) m
                                  (d :: path.ancestors (String.length d) d)) w)
        end
    end.

Definition parent_is_dir (m : gmap string node) (p : string) : bool :=
  match path.dirname p with
  | EmptyString => true
  | d => is_dir m d
  end.

(** Is one of the directories above [p] a regular file? *)
Definition below_file (m : gmap string node) (p : string) : bool :=
  existsb (is_file m) (path.ancestors (String.length p) p).

(** The error of [open] for a path at which there is nothing to open. *)
Definition open_error (m : gmap string node) (p : string) : exn :=
  if is_dir m p then IsADirectoryError
  else if below_file m p then NotADirectoryError
  else FileNotFoundError.

(** [open(p, mode="r")] followed by reading: the rows of the file. *)
Definition open_r (p : string) : M (list row) :=
  λ w, match fs w !! p with
       | Some (File rows) => (Ok rows, w)
       | Some Dir => (Raise IsADirectoryError, w)
       | None => (Raise (open_error (fs w) p), w)
       end.

(** [open(p, mode="w")]: creates or truncates the file. *)
Definition open_w (p : string) : M unit :=
  λ w, if is_dir (fs w) p then (Raise IsADirectoryError, w)
       else if parent_is_dir (fs w) p
            then (Ok tt, with_fs <[p := File []]> w)
            else (Raise (open_error (fs w) p), w).

Definition rows_of (n : option node) : list row :=
  match n with
  | Some (File rows) => rows
  | _ => []
  end.

(** [writer.writerow(r)] on the writer of the file opened at [p]. *)
Definition writerow (p : string) (r : row) : M unit :=
  λ w, (Ok tt, with_fs (λ m, <[p := File (rows_of (m !! p) ++ [r])]> m) w).

Definition entry_name (prefix k : string) : option string :=
  if String.prefix prefix k then
    match Str.drop (String.length prefix) k with
    | EmptyString => None
    | n => if path.has_slash n then None else Some n
    end
  else None.

(** [os.listdir(p)]: the names directly inside directory [p]. *)
Definition listdir (p : string) : M (list string) :=
  λ w,
    match p with
    | EmptyString => (Raise FileNotFoundError, w)
    | _ =>
        let d := path.rstrip_slashes p in
        let names := omap (λ kv, entry_name (d +:+ "/") kv.1) (map_to_list (fs w)) in
        match d, fs w !! d with
        | EmptyString, _ => (Ok names, w)
        | _, Some Dir => (Ok names, w)
        | _, Some (File _) => (Raise NotADirectoryError, w)
        | _, None => (Raise FileNotFoundError, w)
        end
    end.

(** ** The program *)

Definition nl : string := String "010" EmptyString.

Definition DEFAULT_YEARS_RANGE : list Z := [5; 10].
Definition DEFAULT_VALID_START_RANGE : list Z := [3; 5].
Definition DEFAULT_VALID_END_RANGE : list Z := [2; 7].

(** [int(s)] in the monad. *)
Definition int (s : string) : M Z :=
  match Str.to_int s with
  | Some n => ret n
  | None => raise ValueError
  end.

Definition generate_random_date (year : Z) : M string :=
  month <- randint 1 12 ;;
  max_day <- (if month =? 2 then
                ret (if is_leap_year year then 29 else 28)
              else
                match calendar.monthrange_ndays year month with
                | Some n => ret n
                | None => raise ValueError
                end) ;;
  day <- randint 1 max_day ;;
  ret (Str.of_int year +:+ "-" +:+ Str.format_02d month +:+ "-" +:+ Str.format_02d day).

Definition generate_dates (m : Match)
    (random_years random_valid_start_year random_valid_end_year : Z)
    : M (string * string * string) :=
  creation_year <- int (group1 m) ;;
  let time_part := group4 m in
  let deletion_year := creation_year + random_years in
  let valid_start_year := creation_year + random_valid_start_year in
  let valid_end_year := valid_start_year + random_valid_end_year in
  d1 <- generate_random_date deletion_year ;;
  let deletion_date :=
    Str.of_int deletion_year +:+ "-" +:+ Str.drop 5 d1 +:+ "T" +:+ time_part in
  d2 <- generate_random_date valid_start_year ;;
  let valid_start :=
    Str.of_int valid_start_year +:+ "-" +:+ Str.drop 5 d2 +:+ "T" +:+ time_part in
  d3 <- generate_random_date valid_end_year ;;
  let valid_end :=
    Str.of_int valid_end_year +:+ "-" +:+ Str.drop 5 d3 +:+ "T" +:+ time_part in
  ret (deletion_date, valid_start, valid_end).

(** [header.index(x)]: the first position of [x]; [None] is [ValueError]. *)
Fixpoint index (x : string) (l : list string) : option nat :=
  match l with
  | [] => None
  | y :: l' => if String.eqb y x then Some O else S <$> index x l'
  end.

(** The body of the row loop of [process_csv_file]. *)
Definition process_row (output_file : string) (creation_date_index : nat)
    (random_years_range random_valid_start_range random_valid_end_range : list Z)
    (r : row) : M unit :=
  if (length r <=? creation_date_index)%nat then ret tt
  else
    let creation_date := nth creation_date_index r EmptyString in
    match re_search pattern creation_date with
    | Some m =>
        random_years <- randint_star random_years_range ;;
        random_valid_start_year <- randint_star random_valid_start_range ;;
        random_valid_end_year <- randint_star random_valid_end_range ;;
        dates <- generate_dates m random_years random_valid_start_year
                   random_valid_end_year ;;
        let '(deletion_date, valid_start, valid_end) := dates in
        writerow output_file (r ++ [deletion_date; valid_start; valid_end])
    | None => writerow output_file r
    end.

(** [for row in reader: ...] *)
Fixpoint for_rows (body : row → M unit) (rows : list row) : M unit :=
  match rows with
  | [] => ret tt
  | r :: rest => body r ;;; for_rows body rest
  end.

Definition process_csv_file (input_file output_directory : string)
    (random_years_range random_valid_start_range random_valid_end_range : list Z)
    : M unit :=
  let output_file := path.join output_directory (path.basename input_file) in
  try_except
    (rows <- open_r input_file ;;
     match rows with
     | [] => raise StopIteration
     | header :: rest =>
         match index "creationDate" header with
         | None =>
             print ("Skipping '" +:+ input_file +:+ "' (No 'creationDate' column found)")
         | Some creation_date_index =>
             open_w output_file ;;;
             writerow output_file (header ++ ["deletionDate"; "validStart"; "validEnd"]) ;;;
             for_rows (process_row output_file creation_date_index random_years_range
                         random_valid_start_range random_valid_end_range) rest ;;;
             print ("Processed: " +:+ input_file +:+ " -> " +:+ output_file)
         end
     end)
    (λ e, emit (PrintError input_file e)).

(** [for file in csv_files: process_csv_file(os.path.join(...), ...)] *)
Fixpoint for_files (input_directory output_directory : string)
    (random_years_range random_valid_start_range random_valid_end_range : list Z)
    (csv_files : list string) : M unit :=
  match csv_files with
  | [] => ret tt
  | file :: rest =>
      process_csv_file (path.join input_directory file) output_directory
        random_years_range random_valid_start_range random_valid_end_range ;;;
      for_files input_directory output_directory
        random_years_range random_valid_start_range random_valid_end_range rest
  end.

Definition process_directory (input_directory output_directory : string)
    (random_years_range random_valid_start_range random_valid_end_range : list Z)
    : M unit :=
  makedirs output_directory ;;;
  entries <- listdir input_directory ;;
  let csv_files := filter (λ f, Is_true (Str.endswith f ".csv")) entries in
  match csv_files with
  | [] => print ("No CSV files found in directory: " +:+ input_directory)
  | _ =>
      print ("Processing " +:+ Str.of_int (Z.of_nat (length csv_files))
             +:+ " CSV files in '" +:+ input_directory +:+ "'...") ;;;
      for_files input_directory output_directory
        random_years_range random_valid_start_range random_valid_end_range csv_files
  end.

(** [parse_range]; [None] stands for [argparse.ArgumentTypeError]. *)
Definition parse_range (value : string) : option (Z * Z) :=
  match mapM Str.to_int (Str.split "," value) with
  | Some [min_val; max_val] =>
      if max_val <? min_val then None else Some (min_val, max_val)
  | _ => None
  end.

Definition get_range_input (prompt : string) (default : list Z) : M (list Z) :=
  line <- input prompt ;;
  let user_input := Str.strip line in
  match user_input with
  | EmptyString => ret default
  | _ =>
      match mapM Str.to_int (Str.split "," user_input) with
      | Some t => ret t
      | None =>
          print ("Invalid input. Using default values: " +:+ Str.repr_tuple default) ;;;
          ret default
      end
  end.

Definition mem (a : string) (l : list string) : bool := existsb (String.eqb a) l.

(** The interactive part of [main], entered when [input_path] is empty:
    the mode, the path and the three ranges. *)
Definition interactive
    (random_years_range random_valid_start_range random_valid_end_range : list Z)
    : M (string * bool * (list Z * list Z * list Z)) :=
  print (nl +:+ "*** CSV Processing Script ***") ;;;
  line <- input ("1 - Process a directory" +:+ nl +:+ "2 - Process a single file"
                 +:+ nl +:+ "Enter your choice (1 or 2): ") ;;
  let choice := Str.strip line in
  mode <- (if String.eqb choice "1" then
             p <- input "Enter the directory path containing CSV files: " ;;
             ret (Str.strip p, true)
           else if String.eqb choice "2" then
             p <- input "Enter the CSV file path: " ;;
             ret (Str.strip p, false)
           else
             print "Invalid choice. Exiting." ;;; sys_exit 1) ;;
  let '(input_path, is_directory) := mode in
  (match input_path with
   | EmptyString => print "Error: No valid path provided. Exiting." ;;; sys_exit 1
   | _ => ret tt
   end) ;;;
  line <- input ("Do you want to set custom random values? " +:+ nl
                 +:+ " Default: dyr=" +:+ Str.repr_tuple DEFAULT_YEARS_RANGE
                 +:+ " vsr=" +:+ Str.repr_tuple DEFAULT_VALID_START_RANGE
                 +:+ " ver=" +:+ Str.repr_tuple DEFAULT_VALID_END_RANGE
                 +:+ nl +:+ "(y/N):") ;;
  let custom_random := Str.lower (Str.strip line) in
  if String.eqb custom_random "y" then
    r1 <- get_range_input "Enter random deletion years range <min,max>: "
            random_years_range ;;
    r2 <- get_range_input "Enter random valid start range <min,max>: "
            random_valid_start_range ;;
    r3 <- get_range_input "Enter random valid end range <min,max>: "
            random_valid_end_range ;;
    ret (input_path, is_directory, (r1, r2, r3))
  else
    ret (input_path, is_directory,
         (random_years_range, random_valid_start_range, random_valid_end_range)).

(** [main]. An absent path ([None]) and the empty path are both falsy for
    [not input_path] and are both the empty string here. *)
Definition main (input_path output_directory : string) (is_directory : bool)
    (random_years_range random_valid_start_range random_valid_end_range : list Z)
    : M unit :=
  makedirs output_directory ;;;
  args <- sys_argv ;;
  let has_directory_arg := existsb (λ a, mem a args) ["-d"; "--directory"] in
  let has_file_arg := existsb (λ a, mem a args) ["-f"; "--file"] in
  (if has_directory_arg && has_file_arg then
     print "Error: -d/--directory and -f/--file cannot be used simultaneously." ;;;
     sys_exit 1
   else ret tt) ;;;
  cfg <- (match input_path with
          | EmptyString =>
              interactive random_years_range random_valid_start_range
                random_valid_end_range
          | _ =>
              ret (input_path, is_directory,
                   (random_years_range, random_valid_start_range,
                    random_valid_end_range))
          end) ;;
  let '(input_path, is_directory, (r1, r2, r3)) := cfg in
  if is_directory then
    process_directory input_path output_directory r1 r2 r3
  else
    found <- os_path_exists input_path ;;
    if found then process_csv_file input_path output_directory r1 r2 r3
    else print ("File not found: " +:+ input_path) ;;; sys_exit 1.

(** ** Reading the results *)

(** The world after [n] more draws from the generator. *)
Definition advance (n : nat) (w : World) : World :=
  {| fs := fs w; stdout := stdout w; stdin := stdin w;
     tape := tape w; cursor := n + cursor w; argv := argv w |}.

(** The outcome of [random.randint(a, b)] on the raw draw [t]. *)
Definition draw (a b t : Z) : Z := a + t mod (b - a + 1).

(** The month, the last day of that month and the day that
    [generate_random_date] derives from two raw draws. *)
Definition month_of (t : Z) : Z := draw 1 12 t.

Definition max_day_of (year month : Z) : Z :=
  if month =? 2 then (if is_leap_year year then 29 else 28)
  else default 0 (calendar.monthrange_ndays year month).

Definition day_of (year t1 t2 : Z) : Z := draw 1 (max_day_of year (month_of t1)) t2.

Definition date_of (year t1 t2 : Z) : string :=
  Str.of_int year +:+ "-" +:+ Str.format_02d (month_of t1)
    +:+ "-" +:+ Str.format_02d (day_of year t1 t2).

(** A derived timestamp of [generate_dates] for a target year, two raw
    draws and the captured time part. *)
Definition stamp_of (year t1 t2 : Z) (time_part : string) : string :=
  Str.of_int year +:+ "-" +:+ Str.drop 5 (date_of year t1 t2) +:+ "T" +:+ time_part.

(** The Gregorian calendar as the specification words it: leap years are
    those divisible by 4 and not by 100, unless also divisible by 400. *)
Definition gregorian_leap (year : Z) : Prop :=
  (year mod 4 = 0 ∧ year mod 100 ≠ 0) ∨ year mod 400 = 0.

Definition gregorian_days (leap : bool) (month : Z) : Z :=
  match month with
  | 1 | 3 | 5 | 7 | 8 | 10 | 12 => 31
  | 4 | 6 | 9 | 11 => 30
  | 2 => if leap then 29 else 28
  | _ => 0
  end.

(** The year a timestamp starts with: an optional minus sign and the run
    of digits that follows. *)
Fixpoint leading_digits (acc : Z) (s : string) : Z :=
  match s with
  | String c s' =>
      if Str.is_digit c then leading_digits (10 * acc + Str.digit_val c) s' else acc
  | EmptyString => acc
  end.

Definition starts_with_digit (s : string) : bool :=
  match s with
  | String c _ => Str.is_digit c
  | EmptyString => false
  end.

Definition timestamp_year (s : string) : option Z :=
  match s with
  | String c s' =>
      if Ascii.eqb c "-" then
        (if starts_with_digit s' then Some (- leading_digits 0 s') else None)
      else if Str.is_digit c then Some (leading_digits 0 s)
      else None
  | EmptyString => None
  end.

(** Removes a prefix, when it is one. *)
Fixpoint strip_prefix (prefix s : string) : option string :=
  match prefix, s with
  | EmptyString, _ => Some s
  | String a p', String b s' => if Ascii.eqb a b then strip_prefix p' s' else None
  | String _ _, EmptyString => None
  end.

(** The shape [<year>-<2-digit month>-<2-digit day>T<suffix>]. *)
Definition well_formed (year : Z) (suffix s : string) : bool :=
  match strip_prefix (Str.of_int year +:+ "-") s with
  | Some (String m1 (String m2 (String sep (String d1 (String d2 (String t rest)))))) =>
      Str.is_digit m1 && Str.is_digit m2 && Ascii.eqb sep "-"
      && Str.is_digit d1 && Str.is_digit d2 && Ascii.eqb t "T"
      && String.eqb rest suffix
  | _ => false
  end.

(** Does the row reach the creation-date column? *)
Definition has_field (creation_date_index : nat) (r : row) : bool :=
  negb (length r <=? creation_date_index)%nat.

(** What the row loop writes for a row that reaches the column. *)
Definition row_output (creation_date_index : nat) (r out : row) : Prop :=
  match re_search pattern (nth creation_date_index r EmptyString) with
  | Some _ => ∃ deletion_date valid_start valid_end,
                out = r ++ [deletion_date; valid_start; valid_end]
  | None => out = r
  end.
(** The offsets and the three timestamps of a matched row, read off the
    tape at the cursor with which the row is reached: cells 0..2 give the
    offsets, cells 3..8 the months and days. *)
Definition offset_at (k : nat) (range_min range_max : Z) (w : World) : Z :=
  draw range_min range_max (tape w (k + cursor w)).

Definition stamp_at (k : nat) (year : Z) (time_part : string) (w : World) : string :=
  stamp_of year (tape w (k + cursor w)) (tape w (S k + cursor w)) time_part.

(** The world after the row loop has appended [out] to the output file
    and drawn [n] numbers. *)
Definition appended (output_file : string) (out : row) (n : nat) (w : World) : World :=
  with_fs (λ m, <[output_file := File (rows_of (m !! output_file) ++ [out])]> m)
    (advance n w).


(** ** Sample inputs *)

Definition sample_world : World :=
  {| fs := ∅; stdout := []; stdin := [];
     tape := λ n, 7 * Z.of_nat n + 3; cursor := 0; argv := [] |}.

Definition sample_row : row := ["U1"; "2020-05-17T10:15:30.000+0000"].

Definition sample_match : Match :=
  {| m_start := 0; m_text := "2020-05-17T10:15:30.000+0000" |}.

Definition padded_row : row := ["U3"; "id=2020-05-17T10:15:30.000+0000;2021"].

Definition early_row : row := ["U9"; "0100-01-01T00:00:00.000+0000"].

Definition early_match : Match :=
  {| m_start := 0; m_text := "0100-01-01T00:00:00.000+0000" |}.

(** The world after [o] has gone to standard output. *)
Definition printed (o : output) (w : World) : World :=
  {| fs := fs w; stdout := stdout w ++ [o]; stdin := stdin w;
     tape := tape w; cursor := cursor w; argv := argv w |}.

(** A file with a data row that is too short to have a creation date; the
    output directory exists. *)
Definition short_row_world : World :=
  {| fs := <["in.csv" := File [["id"; "creationDate"]; ["x"]]]> (<["out" := Dir]> ∅);
     stdout := []; stdin := [];
     tape := λ n, 7 * Z.of_nat n + 3; cursor := 0; argv := [] |}.

(** The diagnostic of [process_csv_file] for a file without the column. *)
Definition skipping (input_file : string) : output :=
  Print ("Skipping '" +:+ input_file +:+ "' (No 'creationDate' column found)").

(** The directory of the specification's example: [a.csv] has the
    creation-date column, [b.csv] lacks it. *)
Definition two_files_world : World :=
  {| fs := <["in/a.csv" := File [["id"; "creationDate"];
                                 ["U1"; "2020-05-17T10:15:30.000+0000"]]]>
             (<["in/b.csv" := File [["id"; "name"]; ["U2"; "n"]]]>
                (<["in" := Dir]> ∅));
     stdout := []; stdin := [];
     tape := λ n, 7 * Z.of_nat n + 3; cursor := 0; argv := [] |}.

(** A command never leaves through [sys.exit]. *)
Definition no_exit {A} (c : M A) : Prop :=
  ∀ w n, (c w).1 ≠ Raise (SystemExit n).

(** The test of [main] on [sys.argv]: a directory flag and a file flag are
    both among the arguments. *)
Definition both_flags (args : list string) : bool :=
  existsb (λ a, mem a args) ["-d"; "--directory"]
  && existsb (λ a, mem a args) ["-f"; "--file"].

(** A command keeps a property of the world, however it ends. *)
Definition preserves (P : World → Prop) {A} (c : M A) : Prop :=
  ∀ w, P w → P (c w).2.

(** [two_files_world] with a command line. *)
Definition with_argv (args : list string) (w : World) : World :=
  {| fs := fs w; stdout := stdout w; stdin := stdin w;
     tape := tape w; cursor := cursor w; argv := args |}.

(** A world in which the user types the given lines. *)
Definition typing (lines : list string) : World :=
  {| fs := ∅; stdout := []; stdin := lines;
     tape := λ n, 7 * Z.of_nat n + 3; cursor := 0; argv := ["convert_dataset.py"] |}.

(** A world in which the output path is a regular file. *)
Definition blocked_world : World :=
  {| fs := <["out" := File [["x"]]]> ∅; stdout := []; stdin := [];
     tape := λ n, 7 * Z.of_nat n + 3; cursor := 0;
     argv := ["convert_dataset.py"; "-d"; "in"; "-f"; "in/a.csv"] |}.

(** A command leaves the file system as it is. *)
Definition fs_unchanged {A} (c : M A) : Prop := ∀ w, fs (c w).2 = fs w.

(** A command changes the file system, if at all, by appending one row to
    the file at [p]. *)
Definition appends_at_most (p : string) {A} (c : M A) : Prop :=
  ∀ w, fs (c w).2 = fs w
       ∨ ∃ out, fs (c w).2 = <[p := File (rows_of (fs w !! p) ++ [out])]> (fs w).

(** The world after [input] has shown its prompt and taken the first line
    of standard input. *)
Definition answered (prompt : string) (w : World) : World :=
  {| fs := fs w; stdout := stdout w ++ [Prompt prompt]; stdin := tail (stdin w);
     tape := tape w; cursor := cursor w; argv := argv w |}.

(** A tuple that [random.randint( *t )] rejects: not two numbers, or an
    empty range. *)
Definition bad_range (t : list Z) : bool :=
  match t with
  | [a; b] => b <? a
  | _ => true
  end.

(** A data row that the loop passes over or through without drawing. *)
Definition plain_row (creation_date_index : nat) (r : row) : Prop :=
  has_field creation_date_index r = false
  ∨ re_search pattern (nth creation_date_index r EmptyString) = None.

(** A file whose second data row has a timestamp; the output directory
    exists. *)
Definition mixed_world : World :=
  {| fs := <["in.csv" := File [["id"; "creationDate"]; ["U0"; "n/a"];
                               ["U1"; "2020-05-17T10:15:30.000+0000"];
                               ["U2"; "later"]]]> (<["out" := Dir]> ∅);
     stdout := []; stdin := [];
     tape := λ n, 7 * Z.of_nat n + 3; cursor := 0; argv := [] |}.

(** A command leaves through [sys.exit] with the code 1 only. *)
Definition exits_with_1 {A} (c : M A) : Prop :=
  ∀ w n, (c w).1 = Raise (SystemExit n) → n = 1.

(** Does the row loop derive dates for this row? *)
Definition matches (creation_date_index : nat) (r : row) : bool :=
  has_field creation_date_index r
  && match re_search pattern (nth creation_date_index r EmptyString) with
     | Some _ => true
     | None => false
     end.

(** * Properties *)

(** ** Strings *)

#[local] Arguments Str.digit_char : simpl never.
#[local] Arguments Str.digit_val : simpl never.
#[local] Arguments Str.is_digit : simpl never.
#[local] Arguments Str.is_space : simpl never.
#[local] Arguments Str.is_int_space : simpl never.

Lemma str_app_cons (c : ascii) (s t : string) : String c s +:+ t = String c (s +:+ t).
Proof. reflexivity. Qed.

Lemma str_app_nil_l (s : string) : "" +:+ s = s.
Proof. reflexivity. Qed.

Lemma str_app_nil_r (s : string) : s +:+ "" = s.
Proof. induction s as [|c s IH]; [done | by rewrite str_app_cons, IH]. Qed.

Lemma str_app_assoc (a b c : string) : (a +:+ b) +:+ c = a +:+ b +:+ c.
Proof. induction a as [|x a IH]; [done | by rewrite !str_app_cons, IH]. Qed.

Lemma str_length_app (a b : string) :
  String.length (a +:+ b) = (String.length a + String.length b)%nat.
Proof. induction a as [|x a IH]; [done | rewrite str_app_cons; simpl; by rewrite IH]. Qed.

Lemma str_drop_app_length (a b : string) : Str.drop (String.length a) (a +:+ b) = b.
Proof. induction a as [|x a IH]; [by destruct b | rewrite str_app_cons; apply IH]. Qed.

Lemma str_take_app_length (a b : string) : Str.take (String.length a) (a +:+ b) = a.
Proof.
  induction a as [|x a IH]; [by destruct b | rewrite str_app_cons; simpl; by rewrite IH].
Qed.

Lemma str_take_drop (n : nat) (s : string) : Str.take n s +:+ Str.drop n s = s.
Proof.
  revert s; induction n as [|n IH]; intros [|c s]; simpl; try done.
  by rewrite str_app_cons, IH.
Qed.

Lemma str_drop_drop (n k : nat) (s : string) : Str.drop n (Str.drop k s) = Str.drop (k + n) s.
Proof.
  revert s; induction k as [|k IH]; intros s; simpl; [done|].
  destruct s as [|c s]; [by destruct n | apply IH].
Qed.

Lemma is_digit_range (c : ascii) :
  Str.is_digit c = true ↔ (48 ≤ nat_of_ascii c ≤ 57)%nat.
Proof.
  unfold Str.is_digit. rewrite andb_true_iff, !Nat.leb_le. done.
Qed.

Lemma is_digit_not_space (c : ascii) : Str.is_digit c = true → Str.is_space c = false.
Proof.
  rewrite is_digit_range. unfold Str.is_space. intros H.
  repeat (apply orb_false_iff; split);
    try (apply andb_false_iff; right; apply Nat.leb_gt; lia);
    apply Nat.eqb_neq; lia.
Qed.

Lemma is_digit_not_int_space (c : ascii) :
  Str.is_digit c = true → Str.is_int_space c = false.
Proof.
  rewrite is_digit_range. unfold Str.is_int_space. intros H.
  repeat (apply orb_false_iff; split);
    try (apply andb_false_iff; right; apply Nat.leb_gt; lia);
    apply Nat.eqb_neq; lia.
Qed.

Lemma is_digit_not_char (c d : ascii) :
  Str.is_digit c = true → Str.is_digit d = false → Ascii.eqb c d = false.
Proof.
  intros Hc Hd. destruct (Ascii.eqb_spec c d) as [->|]; [congruence | done].
Qed.

Lemma digit_val_range (c : ascii) : Str.is_digit c = true → 0 ≤ Str.digit_val c ≤ 9.
Proof. rewrite is_digit_range. unfold Str.digit_val. lia. Qed.

Lemma digit_char_spec (d : Z) :
  0 ≤ d ≤ 9 →
  Str.is_digit (Str.digit_char d) = true ∧ Str.digit_val (Str.digit_char d) = d.
Proof.
  intros H.
  assert (d = 0 ∨ d = 1 ∨ d = 2 ∨ d = 3 ∨ d = 4 ∨ d = 5 ∨ d = 6 ∨ d = 7 ∨ d = 8 ∨ d = 9)
    as Hd by lia.
  repeat (destruct Hd as [-> | Hd]; [by split|]). by subst.
Qed.

(** ** Decimal formatting *)

Lemma log2_div10 (n : Z) : 10 ≤ n → Z.log2 (n / 10) < Z.log2 n.
Proof.
  intros Hn.
  assert (n / 10 ≤ n / 2) as H1 by (apply Z.div_le_compat_l; lia).
  assert (0 < n / 2) as H2 by (apply Z.div_str_pos; lia).
  assert (2 * (n / 2) ≤ n) as H3 by (apply Z.mul_div_le; lia).
  pose proof (Z.log2_le_mono _ _ H1) as L1.
  pose proof (Z.log2_le_mono _ _ H3) as L3.
  rewrite (Z.log2_double _ H2) in L3. lia.
Qed.

Lemma digits_fuel (f f' : nat) (n : Z) :
  0 ≤ n → Z.log2 n < Z.of_nat f → Z.log2 n < Z.of_nat f' →
  Str.digits f n = Str.digits f' n.
Proof.
  revert f' n. induction f as [|f IH]; intros f' n Hn Hf Hf'.
  - pose proof (Z.log2_nonneg n). lia.
  - destruct f' as [|f']; [pose proof (Z.log2_nonneg n); lia|].
    simpl. destruct (n <? 10) eqn:Hlt; [done|].
    apply Z.ltb_ge in Hlt. pose proof (log2_div10 n Hlt).
    rewrite (IH f' (n / 10)); [done | | lia | lia].
    apply Z.div_pos; lia.
Qed.

Lemma of_nonneg_small (n : Z) :
  0 ≤ n < 10 → Str.of_nonneg n = String (Str.digit_char n) "".
Proof.
  intros Hn. unfold Str.of_nonneg. simpl.
  by destruct (Z.ltb_spec n 10); [|lia].
Qed.

Lemma of_nonneg_step (n : Z) :
  10 ≤ n →
  Str.of_nonneg n = Str.of_nonneg (n / 10) +:+ String (Str.digit_char (n mod 10)) "".
Proof.
  intros Hn. unfold Str.of_nonneg at 1. simpl.
  destruct (Z.ltb_spec n 10); [lia|].
  pose proof (log2_div10 n Hn). pose proof (Z.log2_nonneg (n / 10)).
  f_equal. apply digits_fuel; [apply Z.div_pos; lia | lia | lia].
Qed.

(** Induction on the decimal representation. *)
Lemma decimal_ind (P : Z → Prop) :
  (∀ n, 0 ≤ n < 10 → P n) →
  (∀ n, 10 ≤ n → P (n / 10) → P n) →
  ∀ n, 0 ≤ n → P n.
Proof.
  intros Hsmall Hstep n Hn. revert Hn.
  induction (Z.lt_wf 0 n) as [n _ IH]. intros Hn.
  destruct (Z.lt_ge_cases n 10); [apply Hsmall; lia|].
  assert (0 ≤ n / 10) by (apply Z.div_pos; lia).
  assert (n / 10 < n) by (apply Z.div_lt; lia).
  apply Hstep; [lia|]. apply IH; lia.
Qed.

Lemma of_nonneg_digits (n : Z) :
  0 ≤ n → Str.all Str.is_digit (Str.of_nonneg n) = true.
Proof.
  revert n. apply decimal_ind.
  - intros n Hn. rewrite of_nonneg_small by done. cbn [Str.all].
    destruct (digit_char_spec n) as [-> _]; [lia | done].
  - intros n Hn IH. rewrite of_nonneg_step by done.
    assert (∀ s c, Str.all Str.is_digit s = true → Str.is_digit c = true →
                   Str.all Str.is_digit (s +:+ String c "") = true) as Happ.
    { induction s as [|x s IHs]; intros c Hs Hc.
      - rewrite str_app_nil_l. cbn [Str.all]. by rewrite Hc.
      - rewrite str_app_cons. cbn [Str.all] in *.
        apply andb_true_iff in Hs as [-> Hs]. by apply IHs. }
    apply Happ; [done|].
    destruct (digit_char_spec (n mod 10)) as [-> _]; [|done].
    pose proof (Z.mod_pos_bound n 10). lia.
Qed.

Lemma of_nonneg_length_step (n : Z) :
  10 ≤ n → String.length (Str.of_nonneg n) = S (String.length (Str.of_nonneg (n / 10))).
Proof.
  intros Hn. rewrite of_nonneg_step by done. rewrite str_length_app.
  cbn [String.length]. lia.
Qed.

Lemma of_nonneg_length_pos (n : Z) : 0 ≤ n → (1 ≤ String.length (Str.of_nonneg n))%nat.
Proof.
  intros Hn. destruct (Z.lt_ge_cases n 10).
  - by rewrite of_nonneg_small by lia.
  - rewrite of_nonneg_length_step by done. lia.
Qed.

(** The number of digits: four exactly from 1000 to 9999. *)
Lemma of_nonneg_length_4 (n : Z) :
  0 ≤ n → String.length (Str.of_nonneg n) = 4%nat ↔ 1000 ≤ n ≤ 9999.
Proof.
  intros Hn.
  assert (∀ k, 0 ≤ k → k < 10 → String.length (Str.of_nonneg k) = 1%nat) as L1.
  { intros k ? ?. by rewrite of_nonneg_small by lia. }
  assert (∀ k, 10 ≤ k → k < 100 → String.length (Str.of_nonneg k) = 2%nat) as L2.
  { intros k ? ?. rewrite of_nonneg_length_step by done.
    rewrite L1; [done | apply Z.div_pos; lia | apply Z.div_lt_upper_bound; lia]. }
  assert (∀ k, 100 ≤ k → k < 1000 → String.length (Str.of_nonneg k) = 3%nat) as L3.
  { intros k ? ?. rewrite of_nonneg_length_step by lia.
    rewrite L2; [done | apply Z.div_le_lower_bound; lia | apply Z.div_lt_upper_bound; lia]. }
  assert (∀ k, 1000 ≤ k → k < 10000 → String.length (Str.of_nonneg k) = 4%nat) as L4.
  { intros k ? ?. rewrite of_nonneg_length_step by lia.
    rewrite L3; [done | apply Z.div_le_lower_bound; lia | apply Z.div_lt_upper_bound; lia]. }
  assert (∀ k, 10000 ≤ k → (5 ≤ String.length (Str.of_nonneg k))%nat) as L5.
  { intros k ?. rewrite of_nonneg_length_step by lia.
    assert (1000 ≤ k / 10) by (apply Z.div_le_lower_bound; lia).
    rewrite (of_nonneg_length_step (k / 10)) by lia.
    assert (100 ≤ k / 10 / 10) by (apply Z.div_le_lower_bound; lia).
    rewrite (of_nonneg_length_step (k / 10 / 10)) by lia.
    assert (10 ≤ k / 10 / 10 / 10) by (apply Z.div_le_lower_bound; lia).
    rewrite (of_nonneg_length_step (k / 10 / 10 / 10)) by lia.
    pose proof (of_nonneg_length_pos (k / 10 / 10 / 10 / 10)) as Hp.
    assert (0 ≤ k / 10 / 10 / 10 / 10) by (apply Z.div_pos; lia).
    specialize (Hp ltac:(done)). lia. }
  split.
  - intros Hlen.
    destruct (Z.lt_ge_cases n 10); [rewrite L1 in Hlen by lia; done|].
    destruct (Z.lt_ge_cases n 100); [rewrite L2 in Hlen by lia; done|].
    destruct (Z.lt_ge_cases n 1000); [rewrite L3 in Hlen by lia; done|].
    destruct (Z.lt_ge_cases n 10000); [lia|].
    specialize (L5 n ltac:(done)). lia.
  - intros ?. apply L4; lia.
Qed.

(** Reading back the digits that [of_nonneg] wrote. *)
Lemma leading_digits_of_nonneg (n : Z) :
  0 ≤ n →
  ∃ k, ∀ acc rest,
    leading_digits acc (Str.of_nonneg n +:+ rest) = leading_digits (acc * k + n) rest.
Proof.
  revert n. apply decimal_ind.
  - intros n Hn. exists 10. intros acc rest.
    rewrite of_nonneg_small by done. rewrite str_app_cons, str_app_nil_l.
    cbn [leading_digits].
    destruct (digit_char_spec n) as [-> ->]; [lia|]. f_equal. lia.
  - intros n Hn [k IH]. exists (k * 10). intros acc rest.
    rewrite of_nonneg_step by done. rewrite str_app_assoc, IH.
    rewrite str_app_cons, str_app_nil_l. cbn [leading_digits].
    destruct (digit_char_spec (n mod 10)) as [-> ->].
    { pose proof (Z.mod_pos_bound n 10). lia. }
    f_equal. pose proof (Z.div_mod n 10). lia.
Qed.

Lemma of_nonneg_starts_with_digit (n : Z) (rest : string) :
  0 ≤ n → starts_with_digit (Str.of_nonneg n +:+ rest) = true.
Proof.
  intros Hn. pose proof (of_nonneg_digits n Hn) as Hd.
  pose proof (of_nonneg_length_pos n Hn) as Hl.
  destruct (Str.of_nonneg n) as [|c s]; [cbn [String.length] in Hl; lia|].
  rewrite str_app_cons. cbn [starts_with_digit Str.all] in *.
  by apply andb_true_iff in Hd as [-> _].
Qed.

(** The year written in front of a timestamp is read back from it. *)
Lemma timestamp_year_of_int (y : Z) (rest : string) :
  timestamp_year (Str.of_int y +:+ "-" +:+ rest) = Some y.
Proof.
  unfold Str.of_int. destruct (Z.ltb_spec y 0) as [Hneg|Hpos].
  - rewrite str_app_cons. unfold timestamp_year.
    change (Ascii.eqb "-" "-") with true. cbn match.
    rewrite of_nonneg_starts_with_digit by lia.
    destruct (leading_digits_of_nonneg (- y)) as [k Hk]; [lia|].
    rewrite Hk. rewrite str_app_cons. cbn [leading_digits].
    change (Str.is_digit "-") with false. cbn match. f_equal. lia.
  - pose proof (of_nonneg_starts_with_digit y ("-" +:+ rest) Hpos) as Hs.
    destruct (leading_digits_of_nonneg y Hpos) as [k Hk].
    specialize (Hk 0 ("-" +:+ rest)).
    destruct (Str.of_nonneg y +:+ "-" +:+ rest) as [|c s] eqn:E; [done|].
    cbn [starts_with_digit] in Hs. unfold timestamp_year.
    rewrite (is_digit_not_char c "-") by done. rewrite Hs.
    rewrite Hk. rewrite str_app_cons. cbn [leading_digits].
    change (Str.is_digit "-") with false. cbn match. f_equal.
Qed.

(** ** The pattern *)

Lemma match_here_app (p : list atom) (s t : string) :
  match_here p s = Some t →
  ∃ rest, s = t +:+ rest ∧ String.length t = length p.
Proof.
  revert s t. induction p as [|a p IH]; intros s t H; simpl in H.
  - inversion H. by exists s.
  - destruct s as [|c s]; [done|].
    destruct (atom_matches a c); [|done].
    destruct (match_here p s) as [t'|] eqn:E; [|done].
    inversion H; subst. destruct (IH _ _ E) as (rest & -> & Hl).
    exists rest. split; [done | simpl; by rewrite Hl].
Qed.

Lemma match_here_extend (p : list atom) (t rest : string) :
  match_here p t = Some t → match_here p (t +:+ rest) = Some t.
Proof.
  revert t. induction p as [|a p IH]; intros t H; simpl in *.
  - inversion H. done.
  - destruct t as [|c t]; [done|]. rewrite str_app_cons.
    destruct (atom_matches a c); [|done].
    destruct (match_here p t) as [t'|] eqn:E; [|done].
    inversion H; subst. by rewrite (IH _ E).
Qed.

(** [re.search] reports the leftmost position at which the pattern matches. *)
Lemma search_from_leftmost (p : list atom) (pos : nat) (s : string) (m : Match) :
  search_from p pos s = Some m →
  ∃ i, m_start m = (pos + i)%nat
       ∧ match_here p (Str.drop i s) = Some (m_text m)
       ∧ ∀ j, (j < i)%nat → match_here p (Str.drop j s) = None.
Proof.
  revert pos. induction s as [|c s IH]; intros pos H; simpl in H.
  - destruct (match_here p "") as [t|] eqn:E; [|done].
    inversion H; subst. exists 0%nat. simpl. split; [lia|]. split; [done | lia].
  - destruct (match_here p (String c s)) as [t|] eqn:E.
    + inversion H; subst. exists 0%nat. simpl. split; [lia|]. split; [done | lia].
    + destruct (IH _ H) as (i & Hs & Hm & Hj).
      exists (S i). split; [lia|]. split; [done|].
      intros [|j] Hlt; [done|]. simpl. apply Hj. lia.
Qed.

Lemma search_from_complete (p : list atom) (pos i : nat) (s : string) :
  is_Some (match_here p (Str.drop i s)) → is_Some (search_from p pos s).
Proof.
  revert pos s. induction i as [|i IH]; intros pos s [t Ht].
  - simpl in Ht. destruct s; simpl; rewrite Ht; eauto.
  - destruct s as [|c s]; simpl in *.
    + rewrite Ht. eauto.
    + destruct (match_here p (String c s)); eauto.
Qed.

Lemma length_drop (n : nat) (s : string) :
  String.length (Str.drop n s) = (String.length s - n)%nat.
Proof.
  revert s. induction n as [|n IH]; intros [|c s]; simpl; try done; lia.
Qed.

Lemma match_here_cons (a : atom) (p : list atom) (s t : string) :
  match_here (a :: p) s = Some t →
  ∃ c s' t', s = String c s' ∧ atom_matches a c = true
             ∧ match_here p s' = Some t' ∧ t = String c t'.
Proof.
  intros H. cbn [match_here] in H. destruct s as [|c s]; [done|].
  destruct (atom_matches a c) eqn:Ha; [|done].
  destruct (match_here p s) as [t'|] eqn:E; [|done].
  inversion H. by exists c, s, t'.
Qed.

(** [int()] on four digits. *)
Lemma to_int_four_digits (c1 c2 c3 c4 : ascii) :
  Str.is_digit c1 = true → Str.is_digit c2 = true →
  Str.is_digit c3 = true → Str.is_digit c4 = true →
  ∃ cy, Str.to_int (String c1 (String c2 (String c3 (String c4 "")))) = Some cy
        ∧ 0 ≤ cy ≤ 9999.
Proof.
  intros H1 H2 H3 H4.
  unfold Str.to_int, Str.strip_by, Str.rstrip_by.
  cbn [Str.lstrip_by]. rewrite (is_digit_not_int_space c1) by done.
  cbn [String.rev String.rev_app Str.lstrip_by].
  rewrite (is_digit_not_int_space c4) by done.
  cbn [String.rev String.rev_app].
  rewrite (is_digit_not_char c1 "+"), (is_digit_not_char c1 "-") by done.
  cbn [Str.unsigned_val Str.digits_val]. rewrite H1, H2, H3, H4.
  cbn [Str.digits_val].
  pose proof (digit_val_range _ H1). pose proof (digit_val_range _ H2).
  pose proof (digit_val_range _ H3). pose proof (digit_val_range _ H4).
  eexists; split; [done | lia].
Qed.

(** A match of [pattern]: 28 characters, of which the first four are the
    digits of the creation year and the last seventeen the time part. *)
Lemma pattern_match_year (s t : string) :
  match_here pattern s = Some t →
  ∃ cy, Str.to_int (Str.take 4 t) = Some cy ∧ 0 ≤ cy ≤ 9999.
Proof.
  intros H. unfold pattern in H.
  apply match_here_cons in H as (c1 & s1 & t1 & -> & H1 & H & ->).
  apply match_here_cons in H as (c2 & s2 & t2 & -> & H2 & H & ->).
  apply match_here_cons in H as (c3 & s3 & t3 & -> & H3 & H & ->).
  apply match_here_cons in H as (c4 & s4 & t4 & -> & H4 & H & ->).
  cbn [Str.take]. by apply to_int_four_digits.
Qed.

Lemma pattern_match_length (s t : string) :
  match_here pattern s = Some t →
  String.length t = 28%nat ∧ String.length (Str.drop 11 t) = 17%nat.
Proof.
  intros H. destruct (match_here_app _ _ _ H) as (rest & _ & Hl).
  rewrite length_drop, Hl. done.
Qed.

(** What [re.search pattern] returns on a field. *)
Lemma re_search_spec (field : string) (m : Match) :
  re_search pattern field = Some m →
  match_here pattern (Str.drop (m_start m) field) = Some (m_text m)
  ∧ (∀ j, (j < m_start m)%nat → match_here pattern (Str.drop j field) = None)
  ∧ ∃ cy, Str.to_int (group1 m) = Some cy ∧ 0 ≤ cy ≤ 9999.
Proof.
  intros H. destruct (search_from_leftmost _ _ _ _ H) as (i & Hs & Hm & Hj).
  simpl in Hs. subst i. split; [done|]. split; [done|].
  exact (pattern_match_year _ _ Hm).
Qed.

(** ** The generator and the dates *)

Lemma draw_range (a b t : Z) : a ≤ b → a ≤ draw a b t ≤ b.
Proof.
  intros H. unfold draw. pose proof (Z.mod_pos_bound t (b - a + 1)). lia.
Qed.

Lemma randint_ok (a b : Z) (w : World) :
  a ≤ b → randint a b w = (Ok (draw a b (tape w (cursor w))), advance 1 w).
Proof.
  intros H. unfold randint. by destruct (Z.ltb_spec b a); [lia|].
Qed.

Lemma is_leap_year_spec (year : Z) : is_leap_year year = true ↔ gregorian_leap year.
Proof.
  unfold is_leap_year, gregorian_leap.
  rewrite orb_true_iff, andb_true_iff, negb_true_iff, !Z.eqb_eq, Z.eqb_neq. done.
Qed.

Lemma month_of_range (t : Z) : 1 ≤ month_of t ≤ 12.
Proof. by apply draw_range. Qed.

Lemma max_day_of_spec (year month : Z) :
  1 ≤ month ≤ 12 →
  max_day_of year month = gregorian_days (is_leap_year year) month
  ∧ calendar.monthrange_ndays year month ≠ None
  ∧ 28 ≤ max_day_of year month ≤ 31.
Proof.
  intros H.
  assert (month = 1 ∨ month = 2 ∨ month = 3 ∨ month = 4 ∨ month = 5 ∨ month = 6
          ∨ month = 7 ∨ month = 8 ∨ month = 9 ∨ month = 10 ∨ month = 11 ∨ month = 12)
    as Hm by lia.
  repeat (destruct Hm as [-> | Hm]; [unfold max_day_of; simpl;
    try destruct (is_leap_year year); (split; [done|]; split; [done|lia])|]).
  subst. unfold max_day_of. simpl. split; [done|]. split; [done|lia].
Qed.

Lemma day_of_range (year t1 t2 : Z) :
  1 ≤ day_of year t1 t2 ≤ max_day_of year (month_of t1).
Proof.
  apply draw_range. pose proof (max_day_of_spec year _ (month_of_range t1)). lia.
Qed.

Lemma generate_random_date_ok (year : Z) (w : World) :
  generate_random_date year w
  = (Ok (date_of year (tape w (cursor w)) (tape w (S (cursor w)))), advance 2 w).
Proof.
  unfold generate_random_date, bind. rewrite randint_ok by lia.
  set (t1 := tape w (cursor w)). fold (month_of t1).
  pose proof (month_of_range t1) as Hm.
  destruct (max_day_of_spec year _ Hm) as (_ & Hsome & Hrange).
  assert ((if month_of t1 =? 2
           then ret (if is_leap_year year then 29 else 28)
           else match calendar.monthrange_ndays year (month_of t1) with
                | Some n => ret n
                | None => raise ValueError
                end) (advance 1 w)
          = (Ok (max_day_of year (month_of t1)), advance 1 w)) as ->.
  { unfold max_day_of. destruct (month_of t1 =? 2); [done|].
    by destruct (calendar.monthrange_ndays year (month_of t1)). }
  rewrite randint_ok by lia. done.
Qed.

Lemma generate_dates_ok (m : Match) (o1 o2 o3 cy : Z) (w : World) :
  Str.to_int (group1 m) = Some cy →
  generate_dates m o1 o2 o3 w
  = (Ok (stamp_of (cy + o1) (tape w (cursor w)) (tape w (1 + cursor w)) (group4 m),
         stamp_of (cy + o2) (tape w (2 + cursor w)) (tape w (3 + cursor w)) (group4 m),
         stamp_of (cy + o2 + o3) (tape w (4 + cursor w)) (tape w (5 + cursor w)) (group4 m)),
     advance 6 w).
Proof.
  intros Hcy. unfold generate_dates, bind, int. rewrite Hcy. unfold ret at 1.
  rewrite !generate_random_date_ok. done.
Qed.

(** ** One row *)

Lemma stamp_of_year (year t1 t2 : Z) (time_part : string) :
  timestamp_year (stamp_of year t1 t2 time_part) = Some year.
Proof. apply timestamp_year_of_int. Qed.

Lemma stamp_of_suffix (year t1 t2 : Z) (time_part : string) :
  Str.ends_with ("T" +:+ time_part) (stamp_of year t1 t2 time_part).
Proof.
  exists (Str.of_int year +:+ "-" +:+ Str.drop 5 (date_of year t1 t2)).
  unfold stamp_of. by rewrite !str_app_assoc.
Qed.

Lemma process_row_short (output_file : string) (idx : nat) (r1 r2 r3 : list Z)
    (r : row) (w : World) :
  (length r ≤ idx)%nat → process_row output_file idx r1 r2 r3 r w = (Ok tt, w).
Proof.
  intros H. unfold process_row. by destruct (Nat.leb_spec (length r) idx); [|lia].
Qed.

Lemma process_row_unmatched (output_file : string) (idx : nat) (r1 r2 r3 : list Z)
    (r : row) (w : World) :
  (idx < length r)%nat → re_search pattern (nth idx r "") = None →
  process_row output_file idx r1 r2 r3 r w = (Ok tt, appended output_file r 0 w).
Proof.
  intros H Hn. unfold process_row. destruct (Nat.leb_spec (length r) idx); [lia|].
  rewrite Hn. by destruct w.
Qed.

Section MatchedRow.

Variables (output_file : string) (idx : nat) (r : row) (m : Match).
Variables (dyr_min dyr_max vsr_min vsr_max ver_min ver_max : Z).
Hypothesis Hfield : (idx < length r)%nat.
Hypothesis Hmatch : re_search pattern (nth idx r "") = Some m.
Hypothesis Hdyr : dyr_min ≤ dyr_max.
Hypothesis Hvsr : vsr_min ≤ vsr_max.
Hypothesis Hver : ver_min ≤ ver_max.

Lemma process_row_matched (w : World) :
  ∃ cy, Str.to_int (group1 m) = Some cy ∧ 0 ≤ cy ≤ 9999 ∧
    let o1 := offset_at 0 dyr_min dyr_max w in
    let o2 := offset_at 1 vsr_min vsr_max w in
    let o3 := offset_at 2 ver_min ver_max w in
    process_row output_file idx [dyr_min; dyr_max] [vsr_min; vsr_max]
      [ver_min; ver_max] r w
    = (Ok tt,
       appended output_file
         (r ++ [stamp_at 3 (cy + o1) (group4 m) w;
                stamp_at 5 (cy + o2) (group4 m) w;
                stamp_at 7 (cy + o2 + o3) (group4 m) w]) 9 w).
Proof.
  destruct (re_search_spec _ _ Hmatch) as (_ & _ & cy & Hcy & Hrange).
  exists cy. split; [done|]. split; [done|]. simpl.
  unfold process_row. destruct (Nat.leb_spec (length r) idx); [lia|].
  rewrite Hmatch. unfold bind, randint_star.
  rewrite !randint_ok by done.
  rewrite (generate_dates_ok _ _ _ _ cy) by done.
  by destruct w.
Qed.

End MatchedRow.

Lemma draw_onto (a b v : Z) : a ≤ v ≤ b → draw a b (v - a) = v.
Proof. intros H. unfold draw. rewrite Z.mod_small by lia. lia. Qed.

Lemma appended_lookup (output_file : string) (out : row) (n : nat) (w : World) :
  fs (appended output_file out n w) !! output_file
  = Some (File (rows_of (fs w !! output_file) ++ [out])).
Proof. unfold appended. simpl. by rewrite lookup_insert_eq. Qed.

Section MatchedRowClaims.

Variables (output_file : string) (idx : nat) (r : row) (m : Match).
Variables (dyr_min dyr_max vsr_min vsr_max ver_min ver_max : Z).
Hypothesis Hfield : (idx < length r)%nat.
Hypothesis Hmatch : re_search pattern (nth idx r "") = Some m.
Hypothesis Hdyr : dyr_min ≤ dyr_max.
Hypothesis Hvsr : vsr_min ≤ vsr_max.
Hypothesis Hver : ver_min ≤ ver_max.

(** C1. For a row whose creation-date field matches the pattern and for
    inclusive ranges dyr, vsr, ver, the row loop appends three dates whose
    years satisfy: deletion year - creation year in [dyr_min, dyr_max],
    valid-start year - creation year in [vsr_min, vsr_max], valid-end year
    - valid-start year in [ver_min, ver_max]. The three offsets are three
    separate draws of the generator, read from the three tape cells at the
    row's cursor, and the row moves the cursor on, so that the next row
    draws afresh. *)
Theorem C1_year_offsets_in_ranges (w : World) :
  ∃ creation_year deletion_date valid_start valid_end w',
    Str.to_int (group1 m) = Some creation_year
    ∧ process_row output_file idx [dyr_min; dyr_max] [vsr_min; vsr_max]
        [ver_min; ver_max] r w = (Ok tt, w')
    ∧ fs w' !! output_file
      = Some (File (rows_of (fs w !! output_file)
                    ++ [r ++ [deletion_date; valid_start; valid_end]]))
    ∧ ∃ deletion_year valid_start_year valid_end_year,
        timestamp_year deletion_date = Some deletion_year
        ∧ timestamp_year valid_start = Some valid_start_year
        ∧ timestamp_year valid_end = Some valid_end_year
        ∧ dyr_min ≤ deletion_year - creation_year ≤ dyr_max
        ∧ vsr_min ≤ valid_start_year - creation_year ≤ vsr_max
        ∧ ver_min ≤ valid_end_year - valid_start_year ≤ ver_max
        ∧ deletion_year - creation_year = offset_at 0 dyr_min dyr_max w
        ∧ valid_start_year - creation_year = offset_at 1 vsr_min vsr_max w
        ∧ valid_end_year - valid_start_year = offset_at 2 ver_min ver_max w
        ∧ cursor w' = (9 + cursor w)%nat.
Proof.
  destruct (process_row_matched output_file idx r m _ _ _ _ _ _
              Hfield Hmatch Hdyr Hvsr Hver w) as (cy & Hcy & _ & Hrun).
  simpl in Hrun.
  eexists cy, _, _, _, _. split; [done|]. split; [exact Hrun|].
  split; [apply appended_lookup|].
  eexists _, _, _. unfold stamp_at. rewrite !stamp_of_year.
  repeat split; try done; unfold offset_at;
    try (pose proof (draw_range dyr_min dyr_max (tape w (0 + cursor w)) Hdyr);
         pose proof (draw_range vsr_min vsr_max (tape w (1 + cursor w)) Hvsr);
         pose proof (draw_range ver_min ver_max (tape w (2 + cursor w)) Hver); lia).
Qed.

(** C2. For a row whose creation-date field matches the pattern, the
    written row has exactly three more fields than the input row: the
    original fields unchanged and in place, then deletionDate, validStart
    and validEnd in that order, the order of the three column names added
    to the header. They are the three timestamps that [generate_dates]
    returns for the match and the three offsets drawn for the row: the
    first is composed for the year creation + deletion offset, the second
    for creation + valid-start offset, the third for that valid-start year
    + valid-end offset, each as <year>-<random date from its sixth
    character on>T<time part>, and each reads back that year. Each of the
    three ends in "T" followed by the time part captured from the row's
    creation timestamp, 17 characters that stand in the creation-date
    field 11 characters after the start of the match. *)
Theorem C2_three_fields_same_suffix (w : World) :
  ∃ deletion_date valid_start valid_end w',
    process_row output_file idx [dyr_min; dyr_max] [vsr_min; vsr_max]
      [ver_min; ver_max] r w = (Ok tt, w')
    ∧ fs w' !! output_file
      = Some (File (rows_of (fs w !! output_file)
                    ++ [r ++ [deletion_date; valid_start; valid_end]]))
    ∧ length (r ++ [deletion_date; valid_start; valid_end]) = (length r + 3)%nat
    ∧ take (length r) (r ++ [deletion_date; valid_start; valid_end]) = r
    ∧ drop (length r) (r ++ [deletion_date; valid_start; valid_end])
      = [deletion_date; valid_start; valid_end]
    ∧ Str.ends_with ("T" +:+ group4 m) deletion_date
    ∧ Str.ends_with ("T" +:+ group4 m) valid_start
    ∧ Str.ends_with ("T" +:+ group4 m) valid_end
    ∧ String.length (group4 m) = 17%nat
    ∧ Str.starts_with (group4 m) (Str.drop (m_start m + 11) (nth idx r ""))
    ∧ ∃ creation_year,
        Str.to_int (group1 m) = Some creation_year
        ∧ generate_dates m (offset_at 0 dyr_min dyr_max w)
            (offset_at 1 vsr_min vsr_max w) (offset_at 2 ver_min ver_max w)
            (advance 3 w)
          = (Ok (deletion_date, valid_start, valid_end), advance 9 w)
        ∧ deletion_date
          = stamp_at 3 (creation_year + offset_at 0 dyr_min dyr_max w) (group4 m) w
        ∧ valid_start
          = stamp_at 5 (creation_year + offset_at 1 vsr_min vsr_max w) (group4 m) w
        ∧ valid_end
          = stamp_at 7 (creation_year + offset_at 1 vsr_min vsr_max w
                        + offset_at 2 ver_min ver_max w) (group4 m) w
        ∧ timestamp_year deletion_date
          = Some (creation_year + offset_at 0 dyr_min dyr_max w)
        ∧ timestamp_year valid_start
          = Some (creation_year + offset_at 1 vsr_min vsr_max w)
        ∧ timestamp_year valid_end
          = Some (creation_year + offset_at 1 vsr_min vsr_max w
                  + offset_at 2 ver_min ver_max w).
Proof.
  destruct (process_row_matched output_file idx r m _ _ _ _ _ _
              Hfield Hmatch Hdyr Hvsr Hver w) as (cy & Hcy & _ & Hrun).
  cbv zeta in Hrun.
  destruct (re_search_spec _ _ Hmatch) as (Hm & _ & _).
  eexists _, _, _, _. split; [exact Hrun|].
  split; [apply appended_lookup|].
  split; [rewrite length_app; cbn [length]; lia|].
  split; [by rewrite take_app_length|].
  split; [by rewrite drop_app_length|].
  split; [apply stamp_of_suffix|].
  split; [apply stamp_of_suffix|].
  split; [apply stamp_of_suffix|].
  split; [exact (proj2 (pattern_match_length _ _ Hm))|].
  split.
  { destruct (match_here_app _ _ _ Hm) as (rest & Hfieldeq & Hlen).
    exists rest. rewrite <- str_drop_drop, Hfieldeq. unfold group4.
    cbn [length pattern] in Hlen. clear - Hlen.
    destruct (m_text m)
      as [|c0 [|c1 [|c2 [|c3 [|c4 [|c5 [|c6 [|c7 [|c8 [|c9 [|c10 t]]]]]]]]]]];
      cbn [String.length] in Hlen; try lia. done. }
  exists cy. split; [exact Hcy|].
  split; [by rewrite (generate_dates_ok _ _ _ _ cy) by exact Hcy|].
  split; [reflexivity|]. split; [reflexivity|]. split; [reflexivity|].
  unfold stamp_at. rewrite !stamp_of_year. done.
Qed.

End MatchedRowClaims.

Lemma C1_witness :
  (1 < length sample_row)%nat
  ∧ re_search pattern (nth 1 sample_row "") = Some sample_match
  ∧ ∃ creation_year deletion_date deletion_year w',
      Str.to_int (group1 sample_match) = Some creation_year
      ∧ process_row "out.csv" 1 [5; 10] [3; 5] [2; 7] sample_row sample_world = (Ok tt, w')
      ∧ timestamp_year deletion_date = Some deletion_year
      ∧ 5 ≤ deletion_year - creation_year ≤ 10.
Proof.
  split; [simpl; lia|]. split; [reflexivity|].
  destruct (C1_year_offsets_in_ranges "out.csv" 1 sample_row sample_match
              5 10 3 5 2 7 ltac:(simpl; lia) ltac:(reflexivity)
              ltac:(lia) ltac:(lia) ltac:(lia) sample_world)
    as (cy & d & vs & ve & w' & Hcy & Hrun & _ & dy & vsy & vey & Hd & _ & _ & Hr & _).
  exists cy, d, dy, w'. auto.
Defined.

Lemma C2_witness :
  (1 < length sample_row)%nat
  ∧ re_search pattern (nth 1 sample_row "") = Some sample_match
  ∧ ∃ w',
      process_row "out.csv" 1 [5; 10] [3; 5] [2; 7] sample_row sample_world = (Ok tt, w')
      ∧ fs w' !! "out.csv"
        = Some (File [sample_row ++ ["2028-01-01T10:15:30.000+0000";
                                     "2024-03-15T10:15:30.000+0000";
                                     "2031-05-29T10:15:30.000+0000"]]).
Proof.
  split; [simpl; lia|]. split; [reflexivity|].
  destruct (C2_three_fields_same_suffix "out.csv" 1 sample_row sample_match
              5 10 3 5 2 7 ltac:(simpl; lia) ltac:(reflexivity)
              ltac:(lia) ltac:(lia) ltac:(lia) sample_world)
    as (d & vs & ve & w' & Hrun & Hfs & _ & _ & _ & _ & _ & _ & _ & _
        & cy & Hcy & _ & Hd & Hvs & Hve & _).
  assert (cy = 2020) as -> by (vm_compute in Hcy; congruence).
  exists w'. split; [exact Hrun|]. rewrite Hfs, Hd, Hvs, Hve. reflexivity.
Defined.

(** ** Random dates *)

(** C4. For every target year the generated month and day form a valid
    Gregorian date: the month lies in 1..12 and the day in 1..the last day
    of that month in that year, February having 29 days exactly in the leap
    years of the Gregorian rule (divisible by 4 and not by 100, unless also
    divisible by 400) and 28 otherwise; so in 2024 a February day lies in
    [1,29] and in 2023 in [1,28]. *)
Theorem C4_random_date_is_valid (year : Z) (w : World) :
  ∃ month day w',
    generate_random_date year w
    = (Ok (Str.of_int year +:+ "-" +:+ Str.format_02d month
           +:+ "-" +:+ Str.format_02d day), w')
    ∧ 1 ≤ month ≤ 12
    ∧ 1 ≤ day ≤ gregorian_days (is_leap_year year) month
    ∧ (is_leap_year year = true ↔ gregorian_leap year)
    ∧ gregorian_days true 2 = 29 ∧ gregorian_days false 2 = 28
    ∧ is_leap_year 2024 = true ∧ is_leap_year 2023 = false.
Proof.
  exists (month_of (tape w (cursor w))),
         (day_of year (tape w (cursor w)) (tape w (S (cursor w)))), (advance 2 w).
  split; [apply generate_random_date_ok|].
  pose proof (month_of_range (tape w (cursor w))) as Hm.
  split; [done|].
  destruct (max_day_of_spec year _ Hm) as (Heq & _ & _).
  split; [rewrite <- Heq; apply day_of_range|].
  split; [apply is_leap_year_spec | done].
Qed.

(** ** Substring search *)

Lemma str_take_app_le (n : nat) (a b : string) :
  (n ≤ String.length a)%nat → Str.take n (a +:+ b) = Str.take n a.
Proof.
  revert a. induction n as [|n IH]; intros a H; [by destruct a, b|].
  destruct a as [|c a]; simpl in H; [lia|].
  rewrite str_app_cons. simpl. rewrite IH; [done | lia].
Qed.

Lemma str_drop_app_le (n : nat) (a b : string) :
  (n ≤ String.length a)%nat → Str.drop n (a +:+ b) = Str.drop n a +:+ b.
Proof.
  revert a. induction n as [|n IH]; intros a H; [done|].
  destruct a as [|c a]; simpl in H; [lia|].
  rewrite str_app_cons. simpl. apply IH. lia.
Qed.

Lemma str_take_all (s : string) : Str.take (String.length s) s = s.
Proof. induction s as [|c s IH]; simpl; [done | by rewrite IH]. Qed.

(** The groups of a match are slices of the field at the match position. *)
Lemma groups_of_match (field : string) (m : Match) :
  match_here pattern (Str.drop (m_start m) field) = Some (m_text m) →
  group1 m = Str.take 4 (Str.drop (m_start m) field)
  ∧ group4 m = Str.take 17 (Str.drop (m_start m + 11) field).
Proof.
  intros Hm. destruct (pattern_match_length _ _ Hm) as [Hl Hl4].
  destruct (match_here_app _ _ _ Hm) as (rest & Heq & _).
  unfold group1, group4. rewrite <- str_drop_drop, Heq. split.
  - rewrite str_take_app_le; [done | lia].
  - rewrite str_drop_app_le by lia. rewrite <- Hl4. by rewrite str_take_app_length.
Qed.

(** C8. The row test is a substring search: when the timestamp pattern
    occurs anywhere in the creation-date field, with any characters before
    and after it, the row matches and gains the three derived columns; the
    match is the leftmost occurrence of the pattern in the field, and the
    creation year and the time suffix of the derived columns are read at
    that position. *)
Theorem C8_search_finds_embedded_timestamp
    (output_file : string) (idx : nat) (r : row) (before ts after : string)
    (dyr_min dyr_max vsr_min vsr_max ver_min ver_max : Z) (w : World) :
  (idx < length r)%nat →
  nth idx r "" = before +:+ ts +:+ after →
  match_here pattern ts = Some ts →
  dyr_min ≤ dyr_max → vsr_min ≤ vsr_max → ver_min ≤ ver_max →
  ∃ m creation_year deletion_date valid_start valid_end w',
    re_search pattern (nth idx r "") = Some m
    ∧ (m_start m ≤ String.length before)%nat
    ∧ match_here pattern (Str.drop (m_start m) (nth idx r "")) = Some (m_text m)
    ∧ (∀ j, (j < m_start m)%nat →
            match_here pattern (Str.drop j (nth idx r "")) = None)
    ∧ group1 m = Str.take 4 (Str.drop (m_start m) (nth idx r ""))
    ∧ group4 m = Str.take 17 (Str.drop (m_start m + 11) (nth idx r ""))
    ∧ Str.to_int (group1 m) = Some creation_year
    ∧ process_row output_file idx [dyr_min; dyr_max] [vsr_min; vsr_max]
        [ver_min; ver_max] r w = (Ok tt, w')
    ∧ fs w' !! output_file
      = Some (File (rows_of (fs w !! output_file)
                    ++ [r ++ [deletion_date; valid_start; valid_end]]))
    ∧ timestamp_year deletion_date
      = Some (creation_year + offset_at 0 dyr_min dyr_max w)
    ∧ timestamp_year valid_start
      = Some (creation_year + offset_at 1 vsr_min vsr_max w)
    ∧ timestamp_year valid_end
      = Some (creation_year + offset_at 1 vsr_min vsr_max w
              + offset_at 2 ver_min ver_max w)
    ∧ Str.ends_with ("T" +:+ group4 m) deletion_date
    ∧ Str.ends_with ("T" +:+ group4 m) valid_start
    ∧ Str.ends_with ("T" +:+ group4 m) valid_end.
Proof.
  intros Hfield Heq Hts Hdyr Hvsr Hver.
  assert (match_here pattern (Str.drop (String.length before) (nth idx r ""))
          = Some ts) as Hat.
  { rewrite Heq, str_drop_app_length. by apply match_here_extend. }
  destruct (search_from_complete pattern 0 (String.length before) (nth idx r ""))
    as [m Hm]; [by rewrite Hat|].
  fold (re_search pattern (nth idx r "")) in Hm.
  destruct (re_search_spec _ _ Hm) as (Hhere & Hleft & _).
  destruct (groups_of_match _ _ Hhere) as [Hg1 Hg4].
  destruct (process_row_matched output_file idx r m _ _ _ _ _ _
              Hfield Hm Hdyr Hvsr Hver w) as (cy & Hcy & _ & Hrun).
  simpl in Hrun.
  eexists m, cy, _, _, _, _. split; [done|].
  split.
  { destruct (Nat.le_gt_cases (m_start m) (String.length before)) as [|Hgt]; [done|].
    rewrite (Hleft _ Hgt) in Hat. done. }
  split; [done|]. split; [done|]. split; [done|]. split; [done|]. split; [done|].
  split; [exact Hrun|]. split; [apply appended_lookup|].
  unfold stamp_at. rewrite !stamp_of_year.
  repeat split; try done; apply stamp_of_suffix.
Qed.

Lemma C8_witness :
  (1 < length padded_row)%nat
  ∧ nth 1 padded_row "" = "id=" +:+ "2020-05-17T10:15:30.000+0000" +:+ ";2021"
  ∧ match_here pattern "2020-05-17T10:15:30.000+0000"
    = Some "2020-05-17T10:15:30.000+0000"
  ∧ ∃ m deletion_date valid_start valid_end w',
      re_search pattern (nth 1 padded_row "") = Some m
      ∧ (m_start m ≤ 3)%nat
      ∧ process_row "out.csv" 1 [5; 10] [3; 5] [2; 7] padded_row sample_world
        = (Ok tt, w')
      ∧ fs w' !! "out.csv"
        = Some (File [padded_row ++ [deletion_date; valid_start; valid_end]]).
Proof.
  split; [simpl; lia|]. split; [reflexivity|]. split; [reflexivity|].
  destruct (C8_search_finds_embedded_timestamp "out.csv" 1 padded_row
              "id=" "2020-05-17T10:15:30.000+0000" ";2021" 5 10 3 5 2 7 sample_world
              ltac:(simpl; lia) ltac:(reflexivity) ltac:(reflexivity)
              ltac:(lia) ltac:(lia) ltac:(lia))
    as (m & cy & d & vs & ve & w' & H1 & H2 & _ & _ & _ & _ & _ & H3 & H4 & _).
  exists m, d, vs, ve, w'. auto.
Defined.

(** ** The shape of a derived timestamp *)

Lemma strip_prefix_app (p x : string) : strip_prefix p (p +:+ x) = Some x.
Proof.
  induction p as [|c p IH]; [by destruct x|].
  rewrite str_app_cons. simpl. by rewrite Ascii.eqb_refl.
Qed.

Lemma format_02d_two_digits (n : Z) :
  1 ≤ n ≤ 99 →
  ∃ a b, Str.format_02d n = String a (String b "")
         ∧ Str.is_digit a = true ∧ Str.is_digit b = true.
Proof.
  intros Hn. unfold Str.format_02d. destruct (Z.ltb_spec n 0); [lia|].
  destruct (Z.lt_ge_cases n 10).
  - rewrite of_nonneg_small by lia. exists "0"%char, (Str.digit_char n).
    split; [done|]. split; [done|]. apply digit_char_spec. lia.
  - rewrite of_nonneg_step by lia.
    assert (1 ≤ n / 10) by (apply Z.div_le_lower_bound; lia).
    assert (n / 10 < 10) by (apply Z.div_lt_upper_bound; lia).
    rewrite of_nonneg_small by lia.
    exists (Str.digit_char (n / 10)), (Str.digit_char (n mod 10)).
    split; [done|]. split; apply digit_char_spec; [lia|].
    pose proof (Z.mod_pos_bound n 10). lia.
Qed.

Lemma of_int_tail_digits (y : Z) :
  Str.all Str.is_digit (Str.drop 1 (Str.of_int y)) = true.
Proof.
  unfold Str.of_int. destruct (Z.ltb_spec y 0).
  - simpl. apply of_nonneg_digits. lia.
  - pose proof (of_nonneg_digits y ltac:(done)) as H'.
    destruct (Str.of_nonneg y) as [|c s]; [done|]. simpl in *.
    by apply andb_true_iff in H' as [_ ?].
Qed.

Lemma of_int_length_4 (y : Z) :
  String.length (Str.of_int y) = 4%nat ↔ 1000 ≤ y ≤ 9999 ∨ -999 ≤ y ≤ -100.
Proof.
  unfold Str.of_int. destruct (Z.ltb_spec y 0).
  - simpl. split.
    + intros Hl. right.
      destruct (Z.lt_ge_cases (- y) 10);
        [rewrite of_nonneg_small in Hl by lia; done|].
      destruct (Z.lt_ge_cases (- y) 100).
      { rewrite of_nonneg_length_step in Hl by lia.
        rewrite of_nonneg_small in Hl; [done|].
        split; [apply Z.div_pos; lia | apply Z.div_lt_upper_bound; lia]. }
      destruct (Z.lt_ge_cases (- y) 1000); [lia|].
      rewrite of_nonneg_length_step in Hl by lia.
      assert (100 ≤ - y / 10) by (apply Z.div_le_lower_bound; lia).
      rewrite of_nonneg_length_step in Hl by lia.
      assert (10 ≤ - y / 10 / 10) by (apply Z.div_le_lower_bound; lia).
      rewrite of_nonneg_length_step in Hl by lia.
      pose proof (of_nonneg_length_pos (- y / 10 / 10 / 10)) as Hp.
      assert (0 ≤ - y / 10 / 10 / 10) by (apply Z.div_pos; lia).
      specialize (Hp ltac:(done)). lia.
    + intros [?|?]; [lia|].
      rewrite of_nonneg_length_step by lia.
      assert (10 ≤ - y / 10) by (apply Z.div_le_lower_bound; lia).
      assert (- y / 10 < 100) by (apply Z.div_lt_upper_bound; lia).
      rewrite of_nonneg_length_step by lia.
      rewrite of_nonneg_small; [done|].
      split; [apply Z.div_pos; lia | apply Z.div_lt_upper_bound; lia].
  - rewrite of_nonneg_length_4 by done. lia.
Qed.

Ltac absurd_shape H :=
  repeat first [rewrite andb_false_r in H | rewrite andb_false_l in H];
  try discriminate H.

(** Slicing five characters off [YYYY-MM-DD] leaves [MM-DD] exactly when
    the year is written with four characters. *)
Lemma well_formed_stamp (year t1 t2 : Z) (time_part : string) :
  well_formed year time_part (stamp_of year t1 t2 time_part) = true
  ↔ String.length (Str.of_int year) = 4%nat.
Proof.
  unfold well_formed, stamp_of, date_of.
  rewrite <- (str_app_assoc (Str.of_int year) "-"), strip_prefix_app.
  destruct (format_02d_two_digits (month_of t1)) as (a & b & -> & Ha & Hb).
  { pose proof (month_of_range t1). lia. }
  destruct (format_02d_two_digits (day_of year t1 t2)) as (c & d & -> & Hc & Hd).
  { pose proof (day_of_range year t1 t2) as Hr.
    pose proof (max_day_of_spec year _ (month_of_range t1)). lia. }
  pose proof (of_int_tail_digits year) as Htail.
  destruct (Str.of_int year) as [|y1 [|y2 [|y3 [|y4 [|y5 rest]]]]];
    rewrite ?str_app_cons, ?str_app_nil_l; simpl;
    rewrite ?str_app_cons, ?str_app_nil_l; simpl.
  all: change (Str.is_digit "T") with false; change (Str.is_digit "-") with false.
  1-4,6: split; [intros H; exfalso | cbn [String.length]; lia].
  - destruct time_part as [|? [|? [|? [|? ?]]]]; try done. absurd_shape H.
  - destruct time_part as [|? [|? [|? ?]]]; try done. absurd_shape H.
  - destruct time_part as [|? [|? [|? [|? ?]]]]; discriminate H.
  - destruct time_part as [|? ?]; try done. absurd_shape H.
  - cbn [Str.all Str.drop] in Htail.
    repeat (apply andb_true_iff in Htail as [? Htail]).
    destruct rest as [|e [|f [|g rest]]];
      rewrite ?str_app_cons, ?str_app_nil_l in H; simpl in H;
      change (Str.is_digit "-") with false in H.
    + absurd_shape H.
    + absurd_shape H.
    + absurd_shape H.
    + cbn [Str.all] in Htail. repeat (apply andb_true_iff in Htail as [? Htail]).
      rewrite (is_digit_not_char g "-") in H by done.
      match type of H with
      | context [match ?s with _ => _ end] => destruct s as [|? [|? [|? ?]]]
      end; absurd_shape H.
  - rewrite Ha, Hb, Hc, Hd, String.eqb_refl. done.
Qed.

(** C9, as the code has it. [generate_dates] slices a fixed five
    characters off the random date, so a derived timestamp has the shape
    <year>-<2-digit month>-<2-digit day>T<suffix> exactly when its target
    year is written with four characters: from 1000 to 9999, and also from
    -999 to -100, where the minus sign is the fourth character. For every
    other target year (0 to 999, -99 to -1, beyond 9999, below -999) the
    composed string does not have that shape. *)
Theorem C9_well_formed_iff_four_characters
    (field : string) (m : Match) (o1 o2 o3 : Z) (w : World) :
  re_search pattern field = Some m →
  ∃ creation_year deletion_date valid_start valid_end w',
    Str.to_int (group1 m) = Some creation_year
    ∧ generate_dates m o1 o2 o3 w = (Ok (deletion_date, valid_start, valid_end), w')
    ∧ (well_formed (creation_year + o1) (group4 m) deletion_date = true
       ↔ 1000 ≤ creation_year + o1 ≤ 9999 ∨ -999 ≤ creation_year + o1 ≤ -100)
    ∧ (well_formed (creation_year + o2) (group4 m) valid_start = true
       ↔ 1000 ≤ creation_year + o2 ≤ 9999 ∨ -999 ≤ creation_year + o2 ≤ -100)
    ∧ (well_formed (creation_year + o2 + o3) (group4 m) valid_end = true
       ↔ 1000 ≤ creation_year + o2 + o3 ≤ 9999
         ∨ -999 ≤ creation_year + o2 + o3 ≤ -100).
Proof.
  intros Hm. destruct (re_search_spec _ _ Hm) as (_ & _ & cy & Hcy & _).
  eexists cy, _, _, _, _. split; [done|].
  split; [by apply generate_dates_ok|].
  rewrite !well_formed_stamp, !of_int_length_4. done.
Qed.

Lemma C9_witness :
  re_search pattern (nth 1 sample_row "") = Some sample_match
  ∧ ∃ deletion_date valid_start valid_end w',
      generate_dates sample_match 5 3 2 sample_world
      = (Ok (deletion_date, valid_start, valid_end), w')
      ∧ well_formed 2025 (group4 sample_match) deletion_date = true.
Proof.
  split; [reflexivity|].
  destruct (C9_well_formed_iff_four_characters (nth 1 sample_row "") sample_match
              5 3 2 sample_world ltac:(reflexivity))
    as (cy & d & vs & ve & w' & Hcy & Hrun & Hd & _).
  exists d, vs, ve, w'. split; [exact Hrun|].
  assert (cy = 2020) as -> by (vm_compute in Hcy; congruence).
  apply Hd. lia.
Defined.

(** C9 as the claim words it fails below zero: with creation year 0100 and
    a deletion offset of -300 the target year is -200, below 1000, and the
    derived timestamp keeps both month digits and has the well-formed shape. *)
Lemma C9_counterexample :
  re_search pattern (nth 1 early_row "") = Some early_match
  ∧ Str.to_int (group1 early_match) = Some 100
  ∧ (generate_dates early_match (-300) 3 2 sample_world).1
    = Ok ("-200-04-11T00:00:00.000+0000", "103-6-25T00:00:00.000+0000",
          "105-8-08T00:00:00.000+0000")
  ∧ well_formed (100 + -300) (group4 early_match) "-200-04-11T00:00:00.000+0000" = true
  ∧ ¬ (well_formed (100 + -300) (group4 early_match) "-200-04-11T00:00:00.000+0000" = true
       ↔ 1000 ≤ 100 + -300).
Proof.
  split; [reflexivity|]. split; [reflexivity|]. split; [reflexivity|].
  split; [reflexivity|]. intros [H _]. specialize (H eq_refl). lia.
Qed.

(** ** One file *)

Lemma process_row_cases (output_file : string) (idx : nat) (r : row)
    (dyr_min dyr_max vsr_min vsr_max ver_min ver_max : Z) (w : World) :
  dyr_min ≤ dyr_max → vsr_min ≤ vsr_max → ver_min ≤ ver_max →
  (has_field idx r = false
   ∧ process_row output_file idx [dyr_min; dyr_max] [vsr_min; vsr_max]
       [ver_min; ver_max] r w = (Ok tt, w))
  ∨ (has_field idx r = true
     ∧ ∃ out n, row_output idx r out
         ∧ process_row output_file idx [dyr_min; dyr_max] [vsr_min; vsr_max]
             [ver_min; ver_max] r w = (Ok tt, appended output_file out n w)).
Proof.
  intros H1 H2 H3. unfold has_field.
  destruct (Nat.leb_spec (length r) idx) as [Hle|Hlt].
  - left. split; [done|]. by apply process_row_short.
  - right. split; [done|]. unfold row_output.
    destruct (re_search pattern (nth idx r "")) as [m|] eqn:Hm.
    + destruct (process_row_matched output_file idx r m _ _ _ _ _ _
                  Hlt Hm H1 H2 H3 w) as (cy & _ & _ & Hrun).
      eexists _, _. split; [|exact Hrun]. eauto.
    + exists r, 0%nat. split; [done|]. by apply process_row_unmatched.
Qed.

(** The row loop appends to the output file one row for each input row
    that reaches the creation-date column, and touches nothing else. *)
Lemma for_rows_written (output_file : string) (idx : nat)
    (dyr_min dyr_max vsr_min vsr_max ver_min ver_max : Z) (rows : list row) :
  dyr_min ≤ dyr_max → vsr_min ≤ vsr_max → ver_min ≤ ver_max →
  ∀ (w : World) (written : list row),
    fs w !! output_file = Some (File written) →
    ∃ outs w',
      for_rows (process_row output_file idx [dyr_min; dyr_max] [vsr_min; vsr_max]
                  [ver_min; ver_max]) rows w = (Ok tt, w')
      ∧ fs w' = <[output_file := File (written ++ outs)]> (fs w)
      ∧ stdout w' = stdout w ∧ stdin w' = stdin w ∧ argv w' = argv w
      ∧ Forall2 (row_output idx) (List.filter (has_field idx) rows) outs.
Proof.
  intros H1 H2 H3. induction rows as [|r rows IH]; intros w written Hw.
  - exists [], w. cbn [for_rows List.filter]. split; [done|].
    rewrite app_nil_r, insert_id by done. repeat split; constructor.
  - cbn [for_rows List.filter]. unfold bind.
    destruct (process_row_cases output_file idx r _ _ _ _ _ _ w H1 H2 H3)
      as [[Hf ->]|(Hf & out & n & Hout & ->)]; rewrite Hf.
    + apply IH. done.
    + destruct (IH (appended output_file out n w) (written ++ [out]))
        as (outs & w' & Hrun & Hfs & Hso & Hsi & Hargv & Hall).
      { rewrite appended_lookup, Hw. done. }
      exists (out :: outs), w'. split; [done|]. split.
      { rewrite Hfs. unfold appended. cbn [fs with_fs advance].
        rewrite insert_insert_eq, <- app_assoc. done. }
      repeat split; try done. by constructor.
Qed.

Lemma open_w_ok (p : string) (w : World) :
  is_dir (fs w) p = false → parent_is_dir (fs w) p = true →
  open_w p w = (Ok tt, with_fs <[p := File []]> w).
Proof. intros H1 H2. unfold open_w. by rewrite H1, H2. Qed.

(** C3, as the code has it. A data row that reaches the creation-date
    column and does not match the pattern is copied unchanged. The output
    file holds the extended header followed by exactly one row for each
    data row that reaches the creation-date column, in order: the row
    itself when its field does not match, the row with three more fields
    when it does. Data rows with too few fields to have a creation date
    are left out of the output. (The file is readable, its header has the
    column, the output file is another file and can be opened, and the
    ranges are pairs with min <= max.) *)
Theorem C3_one_output_row_per_row_with_field
    (input_file output_directory : string) (header : row) (rest : list row)
    (idx : nat) (dyr_min dyr_max vsr_min vsr_max ver_min ver_max : Z) (w : World) :
  let output_file := path.join output_directory (path.basename input_file) in
  fs w !! input_file = Some (File (header :: rest)) →
  index "creationDate" header = Some idx →
  output_file ≠ input_file →
  is_dir (fs w) output_file = false →
  parent_is_dir (fs w) output_file = true →
  dyr_min ≤ dyr_max → vsr_min ≤ vsr_max → ver_min ≤ ver_max →
  ∃ outs w',
    process_csv_file input_file output_directory [dyr_min; dyr_max]
      [vsr_min; vsr_max] [ver_min; ver_max] w = (Ok tt, w')
    ∧ fs w' !! output_file
      = Some (File ((header ++ ["deletionDate"; "validStart"; "validEnd"]) :: outs))
    ∧ Forall2 (row_output idx) (List.filter (has_field idx) rest) outs
    ∧ length outs = length (List.filter (has_field idx) rest)
    ∧ Forall (λ r, re_search pattern (nth idx r "") = None → r ∈ outs)
        (List.filter (has_field idx) rest).
Proof.
  intros output_file Hin Hidx Hne Hdir Hparent H1 H2 H3.
  unfold process_csv_file. fold output_file.
  unfold try_except, bind at 1, open_r. rewrite Hin, Hidx.
  unfold bind at 1. rewrite open_w_ok by done.
  unfold bind at 1, writerow.
  set (w1 := with_fs _ (with_fs _ w)).
  destruct (for_rows_written output_file idx _ _ _ _ _ _ rest H1 H2 H3 w1
              [header ++ ["deletionDate"; "validStart"; "validEnd"]])
    as (outs & w' & Hrun & Hfs & _ & _ & _ & Hall).
  { subst w1. cbn [fs with_fs]. rewrite lookup_insert_eq.
    by rewrite lookup_insert_eq. }
  unfold bind. rewrite Hrun. cbn [print emit].
  exists outs. eexists. split; [done|]. cbn [fs].
  split; [rewrite Hfs; by rewrite lookup_insert_eq|].
  split; [done|]. split; [symmetry; by eapply Forall2_length|].
  clear - Hall. induction Hall as [|r out rows outs Hout Hall IH]; [constructor|].
  constructor.
  - intros Hnone. unfold row_output in Hout. rewrite Hnone in Hout. subst out.
    apply elem_of_cons. by left.
  - eapply Forall_impl; [exact IH|]. intros r' Hr' Hnone.
    apply elem_of_cons. right. by apply Hr'.
Qed.

Lemma C3_witness :
  fs short_row_world !! "in.csv" = Some (File [["id"; "creationDate"]; ["x"]])
  ∧ index "creationDate" ["id"; "creationDate"] = Some 1%nat
  ∧ ∃ outs w',
      process_csv_file "in.csv" "out" [5; 10] [3; 5] [2; 7] short_row_world = (Ok tt, w')
      ∧ fs w' !! "out/in.csv"
        = Some (File (["id"; "creationDate"; "deletionDate"; "validStart"; "validEnd"]
                      :: outs))
      ∧ length outs = 0%nat.
Proof.
  split; [reflexivity|]. split; [reflexivity|].
  destruct (C3_one_output_row_per_row_with_field "in.csv" "out"
              ["id"; "creationDate"] [["x"]] 1 5 10 3 5 2 7 short_row_world
              ltac:(reflexivity) ltac:(reflexivity) ltac:(discriminate)
              ltac:(reflexivity) ltac:(reflexivity)
              ltac:(lia) ltac:(lia) ltac:(lia))
    as (outs & w' & Hrun & Hfs & _ & Hlen & _).
  exists outs, w'. auto.
Defined.

(** C3 as the claim words it fails for a data row that is too short to
    have a creation date: the loop skips it, so the output has no row for
    it. Here the input has one data row and the output has the header only. *)
Lemma C3_counterexample :
  fs short_row_world !! "in.csv" = Some (File [["id"; "creationDate"]; ["x"]])
  ∧ (process_csv_file "in.csv" "out" [5; 10] [3; 5] [2; 7] short_row_world).1 = Ok tt
  ∧ fs (process_csv_file "in.csv" "out" [5; 10] [3; 5] [2; 7] short_row_world).2
      !! "out/in.csv"
    = Some (File [["id"; "creationDate"; "deletionDate"; "validStart"; "validEnd"]])
  ∧ ¬ (∃ out : row,
         fs (process_csv_file "in.csv" "out" [5; 10] [3; 5] [2; 7] short_row_world).2
           !! "out/in.csv"
         = Some (File [["id"; "creationDate"; "deletionDate"; "validStart"; "validEnd"];
                       out])).
Proof.
  split; [reflexivity|]. split; [reflexivity|].
  assert (fs (process_csv_file "in.csv" "out" [5; 10] [3; 5] [2; 7] short_row_world).2
            !! "out/in.csv"
          = Some (File [["id"; "creationDate"; "deletionDate"; "validStart"; "validEnd"]]))
    as H by (vm_compute; reflexivity).
  split; [exact H|]. intros [out Hout]. rewrite H in Hout. discriminate Hout.
Qed.

(** ** Files without the column, and the directory loop *)

Lemma index_None (x : string) (l : list string) : index x l = None ↔ x ∉ l.
Proof.
  induction l as [|y l IH]; cbn [index].
  - split; [intros _; apply not_elem_of_nil | done].
  - rewrite not_elem_of_cons. destruct (String.eqb_spec y x) as [->|Hne].
    + split; [done | intros [? _]; done].
    + destruct (index x l); cbn [fmap option_fmap option_map].
      * split; [done|]. intros [_ H]. by apply IH in H.
      * split; [|done]. intros _. split; [congruence | by apply IH].
Qed.

Lemma process_csv_file_skip (input_file output_directory : string)
    (r1 r2 r3 : list Z) (header : row) (rest : list row) (w : World) :
  fs w !! input_file = Some (File (header :: rest)) →
  "creationDate" ∉ header →
  process_csv_file input_file output_directory r1 r2 r3 w
  = (Ok tt, printed (skipping input_file) w).
Proof.
  intros Hin Hno. apply index_None in Hno.
  unfold process_csv_file, try_except, bind, open_r. by rewrite Hin, Hno.
Qed.

Lemma no_exit_bind {A B} (c : M A) (k : A → M B) :
  no_exit c → (∀ a, no_exit (k a)) → no_exit (bind c k).
Proof.
  intros Hc Hk w n. unfold bind. specialize (Hc w n).
  destruct (c w) as [[a|e] w']; [apply Hk|]. cbn [fst] in *.
  intros [= ->]. by apply Hc.
Qed.

Lemma no_exit_randint_star (t : list Z) : no_exit (randint_star t).
Proof.
  intros w n. destruct t as [|a [|b [|? ?]]]; try done.
  unfold randint_star, randint. by destruct (b <? a).
Qed.

Lemma no_exit_generate_random_date (year : Z) : no_exit (generate_random_date year).
Proof. intros w n. by rewrite generate_random_date_ok. Qed.

Lemma no_exit_generate_dates (m : Match) (o1 o2 o3 : Z) :
  no_exit (generate_dates m o1 o2 o3).
Proof.
  unfold generate_dates. apply no_exit_bind.
  { intros w n. unfold int. by destruct (Str.to_int (group1 m)). }
  intros cy. repeat (apply no_exit_bind; [apply no_exit_generate_random_date|]; intros ?).
  done.
Qed.

Lemma no_exit_process_row (output_file : string) (idx : nat) (r1 r2 r3 : list Z)
    (r : row) :
  no_exit (process_row output_file idx r1 r2 r3 r).
Proof.
  unfold process_row. destruct (length r <=? idx)%nat; [done|].
  destruct (re_search pattern (nth idx r "")) as [m|]; [|done].
  repeat (apply no_exit_bind; [apply no_exit_randint_star|]; intros ?).
  apply no_exit_bind; [apply no_exit_generate_dates|]. by intros [[? ?] ?].
Qed.

Lemma no_exit_for_rows (body : row → M unit) (rows : list row) :
  (∀ r, no_exit (body r)) → no_exit (for_rows body rows).
Proof.
  intros Hb. induction rows as [|r rows IH]; [done|].
  cbn [for_rows]. by apply no_exit_bind.
Qed.

(** [process_csv_file] always returns: whatever goes wrong inside is
    reported on standard output and not raised. *)
Lemma process_csv_file_returns (input_file output_directory : string)
    (r1 r2 r3 : list Z) (w : World) :
  ∃ w', process_csv_file input_file output_directory r1 r2 r3 w = (Ok tt, w').
Proof.
  unfold process_csv_file, try_except.
  match goal with |- context [match ?c w with _ => _ end] =>
    assert (no_exit c) as Hne; [|specialize (Hne w);
      destruct (c w) as [[[]|e] w']; cbn [fst] in Hne] end.
  - apply no_exit_bind.
    { intros w0 k. unfold open_r, open_error.
      destruct (fs w0 !! input_file) as [[|]|]; try done.
      destruct (is_dir _ _); [done|]. by destruct (below_file _ _). }
    intros [|header rest]; [done|].
    destruct (index "creationDate" header); [|done].
    apply no_exit_bind.
    { intros w0 k. unfold open_w, open_error. destruct (is_dir _ _); [done|].
      destruct (parent_is_dir _ _); [done|]. by destruct (below_file _ _). }
    intros _. apply no_exit_bind; [done|]. intros _.
    apply no_exit_bind; [|done].
    apply no_exit_for_rows. intros r. apply no_exit_process_row.
  - eauto.
  - destruct e; try (eexists; reflexivity). by specialize (Hne code).
Qed.

Lemma for_files_returns (ind od : string) (r1 r2 r3 : list Z) (files : list string)
    (w : World) :
  ∃ w', for_files ind od r1 r2 r3 files w = (Ok tt, w').
Proof.
  revert w. induction files as [|f files IH]; intros w; [by exists w|].
  cbn [for_files]. unfold bind.
  destruct (process_csv_file_returns (path.join ind f) od r1 r2 r3 w) as [w1 ->].
  apply IH.
Qed.

Lemma for_files_app (ind od : string) (r1 r2 r3 : list Z) (before after : list string)
    (w : World) :
  for_files ind od r1 r2 r3 (before ++ after) w
  = for_files ind od r1 r2 r3 after (for_files ind od r1 r2 r3 before w).2.
Proof.
  revert w. induction before as [|f before IH]; intros w; [done|].
  cbn [for_files app]. unfold bind.
  destruct (process_csv_file_returns (path.join ind f) od r1 r2 r3 w) as [w1 ->].
  apply IH.
Qed.

(** C5. When the header of a file has no field equal to [creationDate],
    [process_csv_file] stops before it opens any output file: the file
    system is left as it was, the only effect is the diagnostic, which
    names the file, and the call returns normally. In directory mode the
    loop then goes on with the remaining files, and the run ends normally. *)
Theorem C5_missing_column_skips_file
    (input_directory output_directory : string) (r1 r2 r3 : list Z)
    (entries before after : list string) (b : string)
    (header : row) (rest : list row) (w w1 : World) :
  let started :=
    printed (Print ("Processing "
                    +:+ Str.of_int (Z.of_nat (length (before ++ b :: after)))
                    +:+ " CSV files in '" +:+ input_directory +:+ "'...")) w1 in
  let w2 := (for_files input_directory output_directory r1 r2 r3 before started).2 in
  makedirs output_directory w = (Ok tt, w1) →
  listdir input_directory w1 = (Ok entries, w1) →
  filter (λ f, Is_true (Str.endswith f ".csv")) entries = before ++ b :: after →
  fs w2 !! path.join input_directory b = Some (File (header :: rest)) →
  "creationDate" ∉ header →
  process_csv_file (path.join input_directory b) output_directory r1 r2 r3 w2
  = (Ok tt, printed (skipping (path.join input_directory b)) w2)
  ∧ fs (printed (skipping (path.join input_directory b)) w2) = fs w2
  ∧ process_directory input_directory output_directory r1 r2 r3 w
    = for_files input_directory output_directory r1 r2 r3 after
        (printed (skipping (path.join input_directory b)) w2)
  ∧ ∃ w', process_directory input_directory output_directory r1 r2 r3 w = (Ok tt, w').
Proof.
  intros started w2 Hmk Hls Hcsv Hin Hno.
  pose proof (process_csv_file_skip _ output_directory r1 r2 r3 _ _ _ Hin Hno) as Hskip.
  split; [exact Hskip|]. split; [done|].
  assert (process_directory input_directory output_directory r1 r2 r3 w
          = for_files input_directory output_directory r1 r2 r3 (before ++ b :: after)
              started) as Hdir.
  { unfold process_directory, bind. rewrite Hmk, Hls, Hcsv.
    destruct (before ++ b :: after) eqn:E; [by destruct before|done]. }
  rewrite Hdir. split.
  - rewrite for_files_app. fold w2. cbn [for_files]. unfold bind. by rewrite Hskip.
  - apply for_files_returns.
Qed.

Lemma C5_witness :
  makedirs "out" two_files_world
  = (Ok tt, with_fs <["out" := Dir]> two_files_world)
  ∧ ("creationDate" ∉ ["id"; "name"])
  ∧ ∃ w',
      process_directory "in" "out" [5; 10] [3; 5] [2; 7] two_files_world = (Ok tt, w')
      ∧ fs w' !! "out/b.csv" = None
      ∧ is_file (fs w') "out/a.csv" = true
      ∧ stdout w'
        = [Print "Processing 2 CSV files in 'in'...";
           Print "Processed: in/a.csv -> out/a.csv";
           Print "Skipping 'in/b.csv' (No 'creationDate' column found)"].
Proof.
  assert ("creationDate" ∉ ["id"; "name"]) as Hno.
  { apply index_None. reflexivity. }
  split; [reflexivity|]. split; [exact Hno|].
  destruct (C5_missing_column_skips_file "in" "out" [5; 10] [3; 5] [2; 7]
              ["a.csv"; "b.csv"] ["a.csv"] [] "b.csv" ["id"; "name"] [["U2"; "n"]]
              two_files_world (with_fs <["out" := Dir]> two_files_world)
              ltac:(reflexivity) ltac:(vm_compute; reflexivity)
              ltac:(vm_compute; reflexivity) ltac:(vm_compute; reflexivity) Hno)
    as (_ & _ & Hrun & _).
  eexists. split; [exact Hrun|]. vm_compute. auto.
Defined.

(** ** Paths and directories *)

Lemma rev_app_app (s acc : string) :
  String.rev_app s acc = String.rev_app s "" +:+ acc.
Proof.
  revert acc. induction s as [|c s IH]; intros acc; cbn [String.rev_app]; [done|].
  rewrite (IH (String c acc)), (IH (String c "")), str_app_assoc. done.
Qed.

Lemma rev_cons (c : ascii) (s : string) :
  String.rev (String c s) = String.rev s +:+ String c "".
Proof. unfold String.rev. cbn [String.rev_app]. apply rev_app_app. Qed.

Lemma rev_snoc (c : ascii) (s : string) :
  String.rev (s +:+ String c "") = String c (String.rev s).
Proof.
  induction s as [|x s IH]; [done|].
  rewrite str_app_cons, !rev_cons, IH. done.
Qed.

Lemma rev_involutive (s : string) : String.rev (String.rev s) = s.
Proof.
  induction s as [|c s IH]; [done|]. by rewrite rev_cons, rev_snoc, IH.
Qed.

Lemma lstrip_slashes_idem (s : string) :
  path.lstrip_slashes (path.lstrip_slashes s) = path.lstrip_slashes s.
Proof.
  induction s as [|c s IH]; [done|]. cbn [path.lstrip_slashes].
  destruct (Ascii.eqb c "/") eqn:E; [done|]. cbn [path.lstrip_slashes]. by rewrite E.
Qed.

Lemma rstrip_slashes_idem (p : string) :
  path.rstrip_slashes (path.rstrip_slashes p) = path.rstrip_slashes p.
Proof.
  unfold path.rstrip_slashes. by rewrite rev_involutive, lstrip_slashes_idem.
Qed.

(** For a path without trailing slashes, other than the root, [is_dir]
    is a lookup. *)
Lemma is_dir_normal (m : gmap string node) (d : string) :
  path.rstrip_slashes d = d → d ≠ "" →
  is_dir m d = true ↔ m !! d = Some Dir.
Proof.
  intros Hd Hne. unfold is_dir. rewrite Hd.
  destruct d as [|c d]; [done|]. destruct (m !! String c d) as [[|]|]; split; done.
Qed.

Lemma lookup_foldr_dirs (m : gmap string node) (ks : list string) (k : string) :
  foldr (λ k, <[k := Dir]>) m ks !! k
  = if bool_decide (k ∈ ks) then Some Dir else m !! k.
Proof.
  induction ks as [|x ks IH]; cbn [foldr]; [done|].
  destruct (decide (x = k)) as [->|Hne].
  - rewrite lookup_insert_eq. rewrite bool_decide_eq_true_2; [done|]. by left.
  - rewrite lookup_insert_ne by done. rewrite IH.
    destruct (bool_decide (k ∈ ks)) eqn:E.
    + apply bool_decide_eq_true in E. rewrite bool_decide_eq_true_2; [done|]. by right.
    + apply bool_decide_eq_false in E. rewrite bool_decide_eq_false_2; [done|].
      intros [?|?]%elem_of_cons; [congruence | done].
Qed.

(** What [os.makedirs] does when it succeeds: the path is a directory
    afterwards, directories stay directories and regular files stay. *)
Lemma makedirs_ok (p : string) (w w1 : World) :
  makedirs p w = (Ok tt, w1) →
  is_dir (fs w1) p = true
  ∧ (∀ k, fs w !! k = Some Dir → fs w1 !! k = Some Dir)
  ∧ (∀ k, is_file (fs w1) k = is_file (fs w) k)
  ∧ stdout w1 = stdout w ∧ stdin w1 = stdin w ∧ argv w1 = argv w.
Proof.
  unfold makedirs. destruct p as [|c p]; [done|].
  destruct (path.rstrip_slashes (String c p)) as [|c' d] eqn:Hd.
  - intros [= <-]. unfold is_dir. rewrite Hd. done.
  - destruct (existsb _ _) eqn:Hanc; [done|].
    destruct (is_file (fs w) (String c' d)) eqn:Hfile; [done|].
    intros [= <-]. cbn [fs with_fs stdout stdin argv].
    match goal with
    | |- context [<[?a := Dir]> (foldr ?f ?m ?l)] =>
        change (<[a := Dir]> (foldr f m l)) with (foldr f m (a :: l));
        set (ks := a :: l)
    end.
    split; [|split; [|split; [|done]]].
    + unfold is_dir. rewrite Hd. cbv iota. rewrite lookup_foldr_dirs.
      rewrite bool_decide_eq_true_2; [done|]. subst ks. by left.
    + intros k Hk. rewrite lookup_foldr_dirs. rewrite Hk. by destruct (bool_decide _).
    + intros k. unfold is_file at 1. rewrite lookup_foldr_dirs.
      destruct (bool_decide (k ∈ ks)) eqn:E; [|done].
      apply bool_decide_eq_true in E. subst ks.
      apply elem_of_cons in E as [->|E]; [by rewrite Hfile|].
      symmetry. apply not_true_iff_false. intros Hk.
      apply not_true_iff_false in Hanc. apply Hanc.
      apply existsb_exists. exists k. split; [|done]. by apply list_elem_of_In.
Qed.

(** ** What the commands do to the file system *)

Lemma preserves_bind (P : World → Prop) {A B} (c : M A) (k : A → M B) :
  preserves P c → (∀ a, preserves P (k a)) → preserves P (bind c k).
Proof.
  intros Hc Hk w Hw. unfold bind. specialize (Hc w Hw).
  destruct (c w) as [[a|e] w']; [by apply Hk | done].
Qed.

Lemma preserves_ret (P : World → Prop) {A} (a : A) : preserves P (ret a).
Proof. intros w Hw. exact Hw. Qed.

Lemma preserves_raise (P : World → Prop) {A} (e : exn) : preserves P (@raise A e).
Proof. intros w Hw. exact Hw. Qed.

Lemma preserves_try (P : World → Prop) {A} (c : M A) (h : exn → M A) :
  preserves P c → (∀ e, preserves P (h e)) → preserves P (try_except c h).
Proof.
  intros Hc Hh w Hw. unfold try_except. specialize (Hc w Hw).
  destruct (c w) as [[a|e] w']; [done|]. destruct e; try by apply Hh. done.
Qed.

Lemma fs_unchanged_bind {A B} (c : M A) (k : A → M B) :
  fs_unchanged c → (∀ a, fs_unchanged (k a)) → fs_unchanged (bind c k).
Proof.
  intros Hc Hk w. unfold bind. specialize (Hc w).
  destruct (c w) as [[a|e] w']; [|done]. cbn [snd] in Hc. by rewrite Hk.
Qed.

Lemma fs_unchanged_preserves (P : World → Prop) {A} (c : M A) :
  (∀ w w', fs w' = fs w → P w → P w') → fs_unchanged c → preserves P c.
Proof. intros HP Hc w Hw. by apply (HP w). Qed.

Lemma fs_unchanged_emit (o : output) : fs_unchanged (emit o).
Proof. done. Qed.

Lemma fs_unchanged_input (prompt : string) : fs_unchanged (input prompt).
Proof.
  unfold input. apply fs_unchanged_bind; [done|]. intros _ w. by destruct (stdin w).
Qed.

Lemma fs_unchanged_randint_star (t : list Z) : fs_unchanged (randint_star t).
Proof.
  intros w. destruct t as [|a [|b [|? ?]]]; try done.
  unfold randint_star, randint. by destruct (b <? a).
Qed.

Lemma fs_unchanged_generate_dates (m : Match) (o1 o2 o3 : Z) :
  fs_unchanged (generate_dates m o1 o2 o3).
Proof.
  unfold generate_dates. apply fs_unchanged_bind.
  { intros w. unfold int. by destruct (Str.to_int (group1 m)). }
  intros cy.
  repeat (apply fs_unchanged_bind;
          [intros w; by rewrite generate_random_date_ok|]; intros ?).
  done.
Qed.

Lemma fs_unchanged_get_range_input (prompt : string) (default : list Z) :
  fs_unchanged (get_range_input prompt default).
Proof.
  unfold get_range_input. apply fs_unchanged_bind; [apply fs_unchanged_input|].
  intros line. destruct (Str.strip line); [done|].
  by destruct (mapM Str.to_int _).
Qed.

Lemma fs_unchanged_interactive (r1 r2 r3 : list Z) : fs_unchanged (interactive r1 r2 r3).
Proof.
  unfold interactive.
  apply fs_unchanged_bind; [done|]. intros _.
  apply fs_unchanged_bind; [apply fs_unchanged_input|]. intros line.
  apply fs_unchanged_bind.
  { destruct (String.eqb (Str.strip line) "1");
      [apply fs_unchanged_bind; [apply fs_unchanged_input | done]|].
    destruct (String.eqb (Str.strip line) "2");
      [apply fs_unchanged_bind; [apply fs_unchanged_input | done]|].
    by apply fs_unchanged_bind. }
  intros [p isdir].
  apply fs_unchanged_bind.
  { destruct p; [by apply fs_unchanged_bind | done]. }
  intros _. apply fs_unchanged_bind; [apply fs_unchanged_input|]. intros answer.
  destruct (String.eqb _ "y"); [|done].
  repeat (apply fs_unchanged_bind; [apply fs_unchanged_get_range_input|]; intros ?).
  done.
Qed.

Lemma appends_bind_unchanged (p : string) {A B} (c : M A) (k : A → M B) :
  fs_unchanged c → (∀ a, appends_at_most p (k a)) → appends_at_most p (bind c k).
Proof.
  intros Hc Hk w. unfold bind. specialize (Hc w).
  destruct (c w) as [[a|e] w']; cbn [snd] in *; [|by left].
  destruct (Hk a w') as [H|[out H]]; rewrite H, Hc; eauto.
Qed.

Lemma appends_writerow (p : string) (r : row) : appends_at_most p (writerow p r).
Proof. intros w. right. by exists r. Qed.

(** A row of the loop changes nothing but the output file, and that by
    one row at most, whatever the ranges are. *)
Lemma appends_process_row (output_file : string) (idx : nat) (r1 r2 r3 : list Z)
    (r : row) :
  appends_at_most output_file (process_row output_file idx r1 r2 r3 r).
Proof.
  unfold process_row. destruct (length r <=? idx)%nat; [by left|].
  destruct (re_search pattern (nth idx r "")) as [m|]; [|apply appends_writerow].
  repeat (apply appends_bind_unchanged; [apply fs_unchanged_randint_star|]; intros ?).
  apply appends_bind_unchanged; [apply fs_unchanged_generate_dates|].
  intros [[? ?] ?]. apply appends_writerow.
Qed.

Section DirectoryKept.

Variable d : string.
Hypothesis Hnorm : path.rstrip_slashes d = d.
Hypothesis Hne : d ≠ "".

Let kept (w : World) : Prop := fs w !! d = Some Dir.

Lemma kept_unchanged {A} (c : M A) : fs_unchanged c → preserves kept c.
Proof. apply fs_unchanged_preserves. intros w w' Hfs. unfold kept. by rewrite Hfs. Qed.

Lemma kept_makedirs (p : string) : preserves kept (makedirs p).
Proof.
  intros w Hw. destruct (makedirs p w) as [[[]|e] w1] eqn:E.
  - destruct (makedirs_ok _ _ _ E) as (_ & Hdirs & _). by apply Hdirs.
  - assert (w1 = w) as ->; [|exact Hw].
    unfold makedirs in E. destruct p as [|c p]; [by inversion E|].
    destruct (path.rstrip_slashes (String c p)); [by inversion E|].
    destruct (existsb _ _); [by inversion E|].
    destruct (is_file _ _); by inversion E.
Qed.

Lemma kept_open_w (p : string) : preserves kept (open_w p).
Proof.
  intros w Hw. unfold open_w. destruct (is_dir (fs w) p) eqn:Hp; [done|].
  destruct (parent_is_dir (fs w) p); [|done]. unfold kept. cbn [snd fs with_fs].
  destruct (decide (p = d)) as [->|Hpd]; [|by rewrite lookup_insert_ne].
  apply (is_dir_normal _ _ Hnorm Hne) in Hw. congruence.
Qed.

Lemma kept_for_rows (output_file : string) (idx : nat) (r1 r2 r3 : list Z)
    (rows : list row) :
  preserves (λ w, kept w ∧ is_file (fs w) output_file = true)
    (for_rows (process_row output_file idx r1 r2 r3) rows).
Proof.
  induction rows as [|r rows IH]; [apply preserves_ret|]. cbn [for_rows].
  apply preserves_bind; [|intros _; apply IH]. intros w [Hw Hf].
  unfold kept, is_file in *.
  destruct (appends_process_row output_file idx r1 r2 r3 r w) as [->|[out ->]]; [done|].
  assert (output_file ≠ d) as Hod by (intros ->; by rewrite Hw in Hf).
  rewrite lookup_insert_ne, lookup_insert_eq by done. done.
Qed.

Lemma kept_process_csv_file (input_file output_directory : string) (r1 r2 r3 : list Z) :
  preserves kept (process_csv_file input_file output_directory r1 r2 r3).
Proof.
  unfold process_csv_file. apply preserves_try; [|intros e; by apply kept_unchanged].
  apply preserves_bind.
  { apply kept_unchanged. intros w. unfold open_r. by destruct (fs w !! _) as [[|]|]. }
  intros [|header rest]; [apply preserves_raise|].
  destruct (index "creationDate" header) as [idx|]; [|by apply kept_unchanged].
  set (output_file := path.join _ _).
  intros w Hw. unfold bind at 1.
  pose proof (kept_open_w output_file w Hw) as Hopen.
  destruct (open_w output_file w) as [[[]|e] w1] eqn:E; [|done].
  cbn [snd] in Hopen.
  assert (is_file (fs w1) output_file = true) as Hfile.
  { unfold open_w in E. destruct (is_dir _ _); [done|].
    destruct (parent_is_dir _ _); [|done]. inversion E.
    unfold is_file. cbn [fs with_fs]. by rewrite lookup_insert_eq. }
  assert (output_file ≠ d) as Hod.
  { intros Heq. unfold is_file in Hfile. unfold kept in Hopen.
    rewrite Heq, Hopen in Hfile. done. }
  unfold bind at 1, writerow.
  set (w2 := with_fs _ w1).
  assert (kept w2 ∧ is_file (fs w2) output_file = true) as Hw2.
  { subst w2. unfold kept, is_file. cbn [fs with_fs].
    rewrite lookup_insert_ne, lookup_insert_eq by done. done. }
  pose proof (kept_for_rows output_file idx r1 r2 r3 rest w2 Hw2) as [Hloop _].
  unfold bind. destruct (for_rows _ rest w2) as [[[]|e] w3]; done.
Qed.

Lemma kept_for_files (ind od : string) (r1 r2 r3 : list Z) (files : list string) :
  preserves kept (for_files ind od r1 r2 r3 files).
Proof.
  induction files as [|f files IH]; [apply preserves_ret|]. cbn [for_files].
  apply preserves_bind; [apply kept_process_csv_file | intros _; apply IH].
Qed.

Lemma kept_process_directory (ind od : string) (r1 r2 r3 : list Z) :
  preserves kept (process_directory ind od r1 r2 r3).
Proof.
  unfold process_directory. apply preserves_bind; [apply kept_makedirs|]. intros _.
  apply preserves_bind.
  { apply kept_unchanged. intros w. unfold listdir. destruct ind as [|c ind]; [done|].
    destruct (path.rstrip_slashes (String c ind)) as [|c' p]; [done|].
    by destruct (fs w !! String c' p) as [[|]|]. }
  intros entries. destruct (filter _ entries); [by apply kept_unchanged|].
  apply preserves_bind; [by apply kept_unchanged | intros _; apply kept_for_files].
Qed.

(** Everything [main] does after its first line keeps the directory. *)
Lemma kept_main_rest (input_path od : string) (is_directory : bool)
    (r1 r2 r3 : list Z) :
  preserves kept
    (cfg <- (match input_path with
             | EmptyString => interactive r1 r2 r3
             | _ => ret (input_path, is_directory, (r1, r2, r3))
             end) ;;
     let '(input_path, is_directory, (r1, r2, r3)) := cfg in
     if is_directory then process_directory input_path od r1 r2 r3
     else
       found <- os_path_exists input_path ;;
       if found then process_csv_file input_path od r1 r2 r3
       else print ("File not found: " +:+ input_path) ;;; sys_exit 1).
Proof.
  apply preserves_bind.
  { apply kept_unchanged. destruct input_path; [apply fs_unchanged_interactive | done]. }
  intros [[p isdir] [[a b] c]]. destruct isdir; [apply kept_process_directory|].
  apply preserves_bind; [by apply kept_unchanged|]. intros found.
  destruct found; [apply kept_process_csv_file|].
  apply kept_unchanged. by apply fs_unchanged_bind.
Qed.

End DirectoryKept.

(** ** The command shell *)

Lemma main_unfold (input_path od : string) (is_directory : bool)
    (r1 r2 r3 : list Z) (w w1 : World) :
  makedirs od w = (Ok tt, w1) →
  main input_path od is_directory r1 r2 r3 w
  = if both_flags (argv w) then
      (Raise (SystemExit 1),
       printed (Print "Error: -d/--directory and -f/--file cannot be used simultaneously.")
         w1)
    else
      (cfg <- (match input_path with
               | EmptyString => interactive r1 r2 r3
               | _ => ret (input_path, is_directory, (r1, r2, r3))
               end) ;;
       let '(input_path, is_directory, (r1, r2, r3)) := cfg in
       if is_directory then process_directory input_path od r1 r2 r3
       else
         found <- os_path_exists input_path ;;
         if found then process_csv_file input_path od r1 r2 r3
         else print ("File not found: " +:+ input_path) ;;; sys_exit 1) w1.
Proof.
  intros Hmk. destruct (makedirs_ok _ _ _ Hmk) as (_ & _ & _ & _ & _ & Hargv).
  unfold main. unfold bind at 1. rewrite Hmk.
  unfold bind at 1, sys_argv. cbv zeta. rewrite Hargv.
  fold (both_flags (argv w)). unfold bind at 1.
  destruct (both_flags (argv w)); done.
Qed.

Lemma main_makedirs_fails (input_path od : string) (is_directory : bool)
    (r1 r2 r3 : list Z) (w w1 : World) (e : exn) :
  makedirs od w = (Raise e, w1) →
  main input_path od is_directory r1 r2 r3 w = (Raise e, w1).
Proof. intros Hmk. unfold main. unfold bind at 1. by rewrite Hmk. Qed.

(** C10, as the code has it. [main] creates the output directory before
    it looks at the flags. Whenever that first step succeeds, the output
    directory exists when [main] ends, however it ends; in particular an
    invocation with both a directory flag and a file flag among its
    arguments exits with status 1 after creating the directory, and no
    regular file is created or changed. (When [os.makedirs] fails, for
    instance because the output path is a regular file, [main] ends with
    that exception and creates nothing.) *)
Theorem C10_output_directory_created_first
    (input_path output_directory : string) (is_directory : bool)
    (r1 r2 r3 : list Z) (w w1 : World) :
  makedirs output_directory w = (Ok tt, w1) →
  is_dir (fs (main input_path output_directory is_directory r1 r2 r3 w).2)
    output_directory = true
  ∧ (both_flags (argv w) = true →
     main input_path output_directory is_directory r1 r2 r3 w
     = (Raise (SystemExit 1),
        printed
          (Print "Error: -d/--directory and -f/--file cannot be used simultaneously.")
          w1)
     ∧ exit_status (main input_path output_directory is_directory r1 r2 r3 w).1 = 1
     ∧ ∀ p, is_file (fs (main input_path output_directory is_directory r1 r2 r3 w).2) p
            = is_file (fs w) p).
Proof.
  intros Hmk. destruct (makedirs_ok _ _ _ Hmk) as (Hdir & _ & Hfiles & _).
  rewrite (main_unfold _ _ _ _ _ _ _ _ Hmk). split.
  - destruct (both_flags (argv w)); [exact Hdir|].
    unfold is_dir in *. destruct output_directory as [|c od]; [done|].
    destruct (path.rstrip_slashes (String c od)) as [|c' d] eqn:Hd; [done|].
    assert (path.rstrip_slashes (String c' d) = String c' d) as Hnorm.
    { rewrite <- Hd. apply rstrip_slashes_idem. }
    destruct (fs w1 !! String c' d) as [[|]|] eqn:Hw1; try done.
    by rewrite (kept_main_rest (String c' d) Hnorm ltac:(done) input_path
                  (String c od) is_directory r1 r2 r3 w1 Hw1).
  - intros ->. split; [done|]. split; [done|]. exact Hfiles.
Qed.

Lemma C10_witness :
  makedirs "out" (with_argv ["convert_dataset.py"; "-d"; "in"; "-f"; "in/a.csv"]
                    two_files_world)
  = (Ok tt, with_fs <["out" := Dir]>
              (with_argv ["convert_dataset.py"; "-d"; "in"; "-f"; "in/a.csv"]
                 two_files_world))
  ∧ both_flags ["convert_dataset.py"; "-d"; "in"; "-f"; "in/a.csv"] = true
  ∧ is_dir (fs two_files_world) "out" = false
  ∧ is_dir (fs (main "in" "out" true [5; 10] [3; 5] [2; 7]
                  (with_argv ["convert_dataset.py"; "-d"; "in"; "-f"; "in/a.csv"]
                     two_files_world)).2) "out" = true
  ∧ exit_status (main "in" "out" true [5; 10] [3; 5] [2; 7]
                   (with_argv ["convert_dataset.py"; "-d"; "in"; "-f"; "in/a.csv"]
                      two_files_world)).1 = 1.
Proof.
  split; [reflexivity|]. split; [reflexivity|]. split; [reflexivity|].
  destruct (C10_output_directory_created_first "in" "out" true [5; 10] [3; 5] [2; 7]
              (with_argv ["convert_dataset.py"; "-d"; "in"; "-f"; "in/a.csv"]
                 two_files_world) _ ltac:(reflexivity)) as [Hdir Hboth].
  split; [exact Hdir|]. by destruct (Hboth ltac:(reflexivity)) as (_ & Hcode & _).
Defined.

(** C10 as the claim words it fails when the directory cannot be created:
    with a regular file at the output path, [os.makedirs] raises, [main]
    ends there, and no output directory exists afterwards. *)
Lemma C10_counterexample :
  both_flags (argv blocked_world) = true
  ∧ main "in" "out" true [5; 10] [3; 5] [2; 7] blocked_world
    = (Raise FileExistsError, blocked_world)
  ∧ is_dir (fs (main "in" "out" true [5; 10] [3; 5] [2; 7] blocked_world).2) "out"
    = false.
Proof.
  split; [reflexivity|].
  assert (main "in" "out" true [5; 10] [3; 5] [2; 7] blocked_world
          = (Raise FileExistsError, blocked_world)) as H.
  { apply main_makedirs_fails. reflexivity. }
  split; [exact H|]. rewrite H. reflexivity.
Qed.

(** C6, at the failing input. The test of [main] looks for the flags as
    separate arguments. With [--directory=in --file=in/a.csv] the parser
    sets both paths ([input_path] is then the directory and [is_directory]
    is true), but neither flag is an argument of its own: [main] does not
    exit, processes the directory, writes output files and ends with
    status 0. *)
Theorem C6_flags_with_equals_sign_pass :
  both_flags ["convert_dataset.py"; "--directory=in"; "--file=in/a.csv"] = false
  ∧ (main "in" "out" true DEFAULT_YEARS_RANGE DEFAULT_VALID_START_RANGE
       DEFAULT_VALID_END_RANGE
       (with_argv ["convert_dataset.py"; "--directory=in"; "--file=in/a.csv"]
          two_files_world)).1 = Ok tt
  ∧ exit_status
      (main "in" "out" true DEFAULT_YEARS_RANGE DEFAULT_VALID_START_RANGE
         DEFAULT_VALID_END_RANGE
         (with_argv ["convert_dataset.py"; "--directory=in"; "--file=in/a.csv"]
            two_files_world)).1 = 0
  ∧ is_file
      (fs (main "in" "out" true DEFAULT_YEARS_RANGE DEFAULT_VALID_START_RANGE
             DEFAULT_VALID_END_RANGE
             (with_argv ["convert_dataset.py"; "--directory=in"; "--file=in/a.csv"]
                two_files_world)).2) "out/a.csv" = true.
Proof. repeat split; vm_compute; reflexivity. Qed.

(** C7, at the failing inputs. [get_range_input] returns whatever parses
    as integers separated by commas: for the input [5] a tuple of one
    number, for [1,2,3] a tuple of three, for [10,5] a pair with
    min > max. None of them is a min,max pair that [parse_range] accepts,
    and none is the default. *)
Theorem C7_get_range_input_returns_non_pairs :
  (get_range_input "Enter random deletion years range <min,max>: "
     DEFAULT_YEARS_RANGE (typing ["5"])).1 = Ok [5]
  ∧ (get_range_input "Enter random deletion years range <min,max>: "
       DEFAULT_YEARS_RANGE (typing ["1,2,3"])).1 = Ok [1; 2; 3]
  ∧ (get_range_input "Enter random deletion years range <min,max>: "
       DEFAULT_YEARS_RANGE (typing ["10,5"])).1 = Ok [10; 5]
  ∧ parse_range "5" = None ∧ parse_range "1,2,3" = None ∧ parse_range "10,5" = None
  ∧ (get_range_input "Enter random deletion years range <min,max>: "
       DEFAULT_YEARS_RANGE (typing [""])).1 = Ok DEFAULT_YEARS_RANGE
  ∧ (get_range_input "Enter random deletion years range <min,max>: "
       DEFAULT_YEARS_RANGE (typing ["five"])).1 = Ok DEFAULT_YEARS_RANGE.
Proof. repeat split; vm_compute; reflexivity. Qed.

(** * Further properties of the code *)

(** ** Reading integers and ranges *)

Lemma lstrip_head (p : ascii → bool) (c : ascii) (s : string) :
  p c = false → Str.lstrip_by p (String c s) = String c s.
Proof. intros H. cbn [Str.lstrip_by]. by rewrite H. Qed.

Lemma all_app (p : ascii → bool) (a b : string) :
  Str.all p (a +:+ b) = Str.all p a && Str.all p b.
Proof.
  induction a as [|c a IH]; [done|]. rewrite str_app_cons. cbn [Str.all].
  by rewrite IH, andb_assoc.
Qed.

Lemma all_rev (p : ascii → bool) (s : string) : Str.all p (String.rev s) = Str.all p s.
Proof.
  induction s as [|c s IH]; [done|]. rewrite rev_cons, all_app, IH. cbn [Str.all].
  rewrite andb_true_r. apply andb_comm.
Qed.

(** Stripping leaves a string without the stripped characters as it is. *)
Lemma strip_by_none (p : ascii → bool) (s : string) :
  Str.all (λ c, negb (p c)) s = true → Str.strip_by p s = s.
Proof.
  intros H. unfold Str.strip_by, Str.rstrip_by.
  assert (∀ t, Str.all (λ c, negb (p c)) t = true → Str.lstrip_by p t = t) as Hl.
  { intros [|c t] Ht; [done|]. cbn [Str.all] in Ht.
    apply andb_true_iff in Ht as [Hc _]. apply lstrip_head. by apply negb_true_iff. }
  rewrite (Hl s H), Hl; [apply rev_involutive | by rewrite all_rev].
Qed.

Lemma strip_no_space (s : string) :
  Str.all (λ c, negb (Str.is_space c)) s = true → Str.strip s = s.
Proof. apply strip_by_none. Qed.

Lemma all_impl (p q : ascii → bool) (s : string) :
  (∀ c, p c = true → q c = true) → Str.all p s = true → Str.all q s = true.
Proof.
  intros Hpq. induction s as [|c s IH]; [done|]. cbn [Str.all].
  rewrite !andb_true_iff. intros [? ?]. auto.
Qed.

Lemma digits_val_of_nonneg (n : Z) :
  0 ≤ n →
  ∃ k, ∀ acc rest,
    Str.digits_val acc false (Str.of_nonneg n +:+ rest)
    = Str.digits_val (acc * k + n) false rest.
Proof.
  revert n. apply decimal_ind.
  - intros n Hn. exists 10. intros acc rest.
    rewrite of_nonneg_small by done. rewrite str_app_cons, str_app_nil_l.
    cbn [Str.digits_val].
    destruct (digit_char_spec n) as [-> ->]; [lia|]. f_equal. lia.
  - intros n Hn [k IH]. exists (k * 10). intros acc rest.
    rewrite of_nonneg_step by done. rewrite str_app_assoc, IH.
    rewrite str_app_cons, str_app_nil_l. cbn [Str.digits_val].
    destruct (digit_char_spec (n mod 10)) as [-> ->].
    { pose proof (Z.mod_pos_bound n 10). lia. }
    f_equal. pose proof (Z.div_mod n 10). lia.
Qed.

Lemma unsigned_val_of_nonneg (n : Z) : 0 ≤ n → Str.unsigned_val (Str.of_nonneg n) = Some n.
Proof.
  intros Hn. destruct (digits_val_of_nonneg n Hn) as [k Hk].
  specialize (Hk 0 ""). rewrite str_app_nil_r in Hk. cbn [Str.digits_val] in Hk.
  pose proof (of_nonneg_starts_with_digit n "" Hn) as Hd. rewrite str_app_nil_r in Hd.
  destruct (Str.of_nonneg n) as [|c s]; [done|].
  cbn [starts_with_digit] in Hd. cbn [Str.unsigned_val Str.digits_val] in *.
  rewrite Hd in *.
  replace (10 * 0 + Str.digit_val c) with (Str.digit_val c) in Hk by lia.
  rewrite Hk. f_equal.
Qed.

Lemma of_int_avoids (p : ascii → bool) (n : Z) :
  (∀ c, Str.is_digit c = true → p c = false) → p "-"%char = false →
  Str.all (λ c, negb (p c)) (Str.of_int n) = true.
Proof.
  intros Hdigit Hminus.
  assert (∀ k, 0 ≤ k → Str.all (λ c, negb (p c)) (Str.of_nonneg k) = true) as H.
  { intros k Hk. eapply all_impl; [|by apply of_nonneg_digits].
    intros c Hc. by rewrite Hdigit. }
  unfold Str.of_int. destruct (Z.ltb_spec n 0).
  - cbn [Str.all]. rewrite Hminus, H by lia. done.
  - by apply H.
Qed.

Lemma of_int_no_space (n : Z) :
  Str.all (λ c, negb (Str.is_space c)) (Str.of_int n) = true.
Proof. apply of_int_avoids; [apply is_digit_not_space | done]. Qed.

Lemma of_int_no_int_space (n : Z) :
  Str.all (λ c, negb (Str.is_int_space c)) (Str.of_int n) = true.
Proof. apply of_int_avoids; [apply is_digit_not_int_space | done]. Qed.

(** [int(str(n)) = n] for every integer. *)
Lemma to_int_of_int (n : Z) : Str.to_int (Str.of_int n) = Some n.
Proof.
  unfold Str.to_int. rewrite strip_by_none by apply of_int_no_int_space.
  unfold Str.of_int. destruct (Z.ltb_spec n 0).
  - change (Ascii.eqb "-" "+") with false. change (Ascii.eqb "-" "-") with true.
    cbv iota. rewrite unsigned_val_of_nonneg by lia.
    cbn [fmap option_fmap option_map]. f_equal. lia.
  - pose proof (of_nonneg_starts_with_digit n "" ltac:(done)) as Hd.
    rewrite str_app_nil_r in Hd.
    pose proof (unsigned_val_of_nonneg n ltac:(done)) as Hu.
    destruct (Str.of_nonneg n) as [|c s]; [done|]. cbn [starts_with_digit] in Hd.
    by rewrite (is_digit_not_char c "+"), (is_digit_not_char c "-").
Qed.

Lemma split_no_sep (sep : ascii) (s : string) :
  Str.all (λ c, negb (Ascii.eqb c sep)) s = true → Str.split sep s = [s].
Proof.
  induction s as [|c s IH]; [done|]. cbn [Str.all Str.split].
  intros [Hc Hs]%andb_true_iff. apply negb_true_iff in Hc. rewrite Hc, IH by done.
  done.
Qed.

Lemma split_app_sep (sep : ascii) (a b : string) :
  Str.all (λ c, negb (Ascii.eqb c sep)) a = true →
  Str.split sep (a +:+ String sep b) = a :: Str.split sep b.
Proof.
  induction a as [|c a IH].
  - intros _. rewrite str_app_nil_l. cbn [Str.split]. by rewrite Ascii.eqb_refl.
  - cbn [Str.all]. intros [Hc Ha]%andb_true_iff. apply negb_true_iff in Hc.
    rewrite str_app_cons. cbn [Str.split]. rewrite Hc, IH by done. done.
Qed.

Lemma of_int_no_comma (n : Z) :
  Str.all (λ c, negb (Ascii.eqb c ",")) (Str.of_int n) = true.
Proof.
  assert (∀ k, 0 ≤ k → Str.all (λ c, negb (Ascii.eqb c ",")) (Str.of_nonneg k) = true)
    as H.
  { intros k Hk. eapply all_impl; [|by apply of_nonneg_digits].
    intros c Hc. by rewrite (is_digit_not_char c ","). }
  unfold Str.of_int. destruct (Z.ltb_spec n 0).
  - cbn [Str.all]. rewrite H by lia. done.
  - by apply H.
Qed.

Lemma split_pair (a b : Z) :
  Str.split "," (Str.of_int a +:+ "," +:+ Str.of_int b) = [Str.of_int a; Str.of_int b].
Proof.
  change ("," +:+ Str.of_int b) with (String "," (Str.of_int b)).
  rewrite split_app_sep by apply of_int_no_comma.
  by rewrite split_no_sep by apply of_int_no_comma.
Qed.

Lemma mapM_to_int_pair (a b : Z) :
  mapM Str.to_int [Str.of_int a; Str.of_int b] = Some [a; b].
Proof. apply mapM_Some. repeat constructor; apply to_int_of_int. Qed.

(** X1. [parse_range] accepts only two integers separated by one comma,
    the first not above the second: whatever it returns is such a pair. *)
Theorem parse_range_sound (value : string) (min_val max_val : Z) :
  parse_range value = Some (min_val, max_val) →
  min_val ≤ max_val
  ∧ ∃ x y, Str.split "," value = [x; y]
           ∧ Str.to_int x = Some min_val ∧ Str.to_int y = Some max_val.
Proof.
  unfold parse_range. intros H.
  destruct (mapM Str.to_int (Str.split "," value)) as [[|a [|b [|? ?]]]|] eqn:E;
    try done.
  destruct (Z.ltb_spec b a); [done|]. inversion H; subst. split; [lia|].
  apply mapM_Some in E.
  inversion E as [|x a' l1 l1' Hx E1]; subst.
  inversion E1 as [|y b' l2 l2' Hy E2]; subst.
  inversion E2; subst. by exists x, y.
Qed.

Lemma parse_range_sound_witness :
  parse_range " 5 , 1_0" = Some (5, 10)
  ∧ 5 ≤ 10
  ∧ ∃ x y, Str.split "," " 5 , 1_0" = [x; y]
           ∧ Str.to_int x = Some 5 ∧ Str.to_int y = Some 10.
Proof.
  split; [reflexivity|].
  exact (parse_range_sound " 5 , 1_0" 5 10 ltac:(reflexivity)).
Defined.

(** X2. [parse_range] reads back a range written as "min,max": it returns
    the pair when min <= max and rejects it otherwise, for all integers,
    negative ones included. *)
Theorem parse_range_of_written_pair (a b : Z) :
  parse_range (Str.of_int a +:+ "," +:+ Str.of_int b)
  = if b <? a then None else Some (a, b).
Proof. unfold parse_range. by rewrite split_pair, mapM_to_int_pair. Qed.

(** X3. [get_range_input] takes one line from standard input; when the
    line is two integers separated by a comma it returns them as they
    are, in the order typed and without comparing them, and prints
    nothing but the prompt. *)
Theorem get_range_input_of_written_pair
    (prompt : string) (default : list Z) (a b : Z) (w : World) :
  head (stdin w) = Some (Str.of_int a +:+ "," +:+ Str.of_int b) →
  get_range_input prompt default w = (Ok [a; b], answered prompt w).
Proof.
  intros Hin. unfold get_range_input, bind at 1, input, bind, emit.
  cbn [stdin]. destruct (stdin w) as [|line rest] eqn:E; [done|].
  cbn [head] in Hin. inversion Hin; subst line.
  assert (Str.strip (Str.of_int a +:+ "," +:+ Str.of_int b)
          = Str.of_int a +:+ "," +:+ Str.of_int b) as ->.
  { apply strip_no_space. rewrite all_app, of_int_no_space.
    change ("," +:+ Str.of_int b) with (String "," (Str.of_int b)).
    cbn [Str.all]. by rewrite of_int_no_space. }
  rewrite split_pair, mapM_to_int_pair.
  assert (∃ c s, Str.of_int a +:+ "," +:+ Str.of_int b = String c s) as (c & s & ->).
  { destruct (Str.of_int a) as [|c s]; [by eexists _, _|].
    rewrite str_app_cons. by eexists _, _. }
  unfold answered. by rewrite E.
Qed.

Lemma get_range_input_of_written_pair_witness :
  head (stdin (typing ["10,-5"])) = Some (Str.of_int 10 +:+ "," +:+ Str.of_int (-5))
  ∧ get_range_input "range: " [5; 10] (typing ["10,-5"])
    = (Ok [10; -5], answered "range: " (typing ["10,-5"])).
Proof.
  split; [reflexivity|].
  exact (get_range_input_of_written_pair "range: " [5; 10] 10 (-5)
           (typing ["10,-5"]) ltac:(reflexivity)).
Defined.

(** ** What processing a file can and cannot do *)

(** X4. [process_csv_file] never raises: a missing or unreadable input,
    an empty file, an output file that cannot be opened and ranges that
    [random.randint] rejects are all caught inside, and the call returns
    normally. *)
Theorem process_csv_file_never_raises (input_file output_directory : string)
    (r1 r2 r3 : list Z) (w : World) :
  (process_csv_file input_file output_directory r1 r2 r3 w).1 = Ok tt.
Proof.
  by destruct (process_csv_file_returns input_file output_directory r1 r2 r3 w)
    as [w' ->].
Qed.

(** X6. When the input cannot be read as a file with a header line
    (nothing can be opened for reading at the path, or the file is empty),
    [process_csv_file] prints one error line with the file name and does
    nothing else: no output file is created, the file system is unchanged
    and the call returns normally. For an empty file the error is the
    [StopIteration] of [next(reader)]. *)
Theorem process_csv_file_unreadable_input
    (input_file output_directory : string) (r1 r2 r3 : list Z) (w : World) :
  (∀ header rest, fs w !! input_file ≠ Some (File (header :: rest))) →
  ∃ e, process_csv_file input_file output_directory r1 r2 r3 w
       = (Ok tt, printed (PrintError input_file e) w)
       ∧ fs (printed (PrintError input_file e) w) = fs w
       ∧ (fs w !! input_file = Some (File []) → e = StopIteration).
Proof.
  intros Hno. unfold process_csv_file, try_except, bind, open_r.
  destruct (fs w !! input_file) as [[[|header rest]|]|] eqn:E.
  - by exists StopIteration.
  - by destruct (Hno header rest).
  - by exists IsADirectoryError.
  - exists (open_error (fs w) input_file). split; [|done].
    unfold open_error. destruct (is_dir _ _); [done|]. by destruct (below_file _ _).
Qed.

Lemma process_csv_file_unreadable_input_witness :
  (∀ header rest, fs sample_world !! "missing.csv" ≠ Some (File (header :: rest)))
  ∧ ∃ e, process_csv_file "missing.csv" "out" [5; 10] [3; 5] [2; 7] sample_world
         = (Ok tt, printed (PrintError "missing.csv" e) sample_world).
Proof.
  assert (∀ header rest,
            fs sample_world !! "missing.csv" ≠ Some (File (header :: rest))) as H.
  { intros header rest. vm_compute. discriminate. }
  split; [exact H|].
  destruct (process_csv_file_unreadable_input "missing.csv" "out" [5; 10] [3; 5] [2; 7]
              sample_world H) as (e & Hrun & _).
  by exists e.
Defined.

Lemma randint_star_cases (t : list Z) (w : World) :
  (bad_range t = true
   ∧ ∃ e, (e = TypeError ∨ e = ValueError) ∧ randint_star t w = (Raise e, w))
  ∨ (bad_range t = false ∧ ∃ v, randint_star t w = (Ok v, advance 1 w)).
Proof.
  destruct t as [|a [|b [|c t]]]; try (left; split; [done|]; exists TypeError; by auto).
  unfold bad_range, randint_star, randint. destruct (b <? a).
  - left. split; [done|]. exists ValueError. auto.
  - right. split; [done|]. eauto.
Qed.

(** With a range that [random.randint] rejects, a row that matches raises
    before anything is written. *)
Lemma process_row_bad_range (output_file : string) (idx : nat) (r1 r2 r3 : list Z)
    (r : row) (w : World) :
  has_field idx r = true → is_Some (re_search pattern (nth idx r "")) →
  bad_range r1 || bad_range r2 || bad_range r3 = true →
  ∃ e w', (e = TypeError ∨ e = ValueError)
          ∧ process_row output_file idx r1 r2 r3 r w = (Raise e, w')
          ∧ fs w' = fs w ∧ stdout w' = stdout w.
Proof.
  intros Hf [m Hm] Hbad. unfold has_field in Hf. apply negb_true_iff in Hf.
  unfold process_row. rewrite Hf, Hm. unfold bind.
  destruct (randint_star_cases r1 w) as [(_ & e & He & ->)|(H1 & v1 & ->)];
    [by exists e, w|].
  destruct (randint_star_cases r2 (advance 1 w)) as [(_ & e & He & ->)|(H2 & v2 & ->)];
    [by exists e, (advance 1 w)|].
  destruct (randint_star_cases r3 (advance 1 (advance 1 w)))
    as [(_ & e & He & ->)|(H3 & v3 & ->)];
    [by exists e, (advance 1 (advance 1 w))|].
  rewrite H1, H2, H3 in Hbad. done.
Qed.

(** Rows that do not reach the column or do not match are handled the
    same way whatever the ranges are. *)
Lemma for_rows_plain (output_file : string) (idx : nat) (r1 r2 r3 : list Z)
    (pre rest : list row) :
  Forall (plain_row idx) pre →
  ∀ (w : World) (written : list row),
    fs w !! output_file = Some (File written) →
    ∃ w', for_rows (process_row output_file idx r1 r2 r3) (pre ++ rest) w
          = for_rows (process_row output_file idx r1 r2 r3) rest w'
          ∧ fs w' = <[output_file := File (written ++ List.filter (has_field idx) pre)]>
                      (fs w)
          ∧ stdout w' = stdout w.
Proof.
  induction 1 as [|r pre Hr Hpre IH]; intros w written Hw.
  - exists w. cbn [app List.filter]. by rewrite app_nil_r, insert_id.
  - cbn [app for_rows List.filter]. unfold bind.
    destruct (has_field idx r) eqn:Hf.
    + destruct Hr as [Hr|Hr]; [congruence|].
      rewrite process_row_unmatched; [|by apply Nat.leb_gt, negb_true_iff|done].
      destruct (IH (appended output_file r 0 w) (written ++ [r]))
        as (w' & Hrun & Hfs & Hout).
      { by rewrite appended_lookup, Hw. }
      exists w'. split; [done|]. split; [|done].
      rewrite Hfs. unfold appended. cbn [fs with_fs advance].
      by rewrite insert_insert_eq, <- app_assoc.
    + rewrite process_row_short; [|by apply Nat.leb_le, negb_false_iff].
      by apply IH.
Qed.

(** X7. When one of the three ranges is a tuple that [random.randint]
    rejects (not two numbers, or min > max, as the interactive prompts can
    produce), processing stops at the first data row that matches: the
    output file is left with the extended header and the rows before that
    one, the error is printed with the file name, and the call returns
    normally without the "Processed" line. *)
Theorem process_csv_file_bad_range_leaves_partial_output
    (input_file output_directory : string) (r1 r2 r3 : list Z)
    (header r : row) (pre post : list row) (idx : nat) (w : World) :
  let output_file := path.join output_directory (path.basename input_file) in
  fs w !! input_file = Some (File (header :: pre ++ r :: post)) →
  index "creationDate" header = Some idx →
  output_file ≠ input_file →
  is_dir (fs w) output_file = false →
  parent_is_dir (fs w) output_file = true →
  Forall (plain_row idx) pre →
  has_field idx r = true →
  is_Some (re_search pattern (nth idx r "")) →
  bad_range r1 || bad_range r2 || bad_range r3 = true →
  ∃ e w',
    (e = TypeError ∨ e = ValueError)
    ∧ process_csv_file input_file output_directory r1 r2 r3 w = (Ok tt, w')
    ∧ fs w' !! output_file
      = Some (File ((header ++ ["deletionDate"; "validStart"; "validEnd"])
                    :: List.filter (has_field idx) pre))
    ∧ stdout w' = stdout w ++ [PrintError input_file e].
Proof.
  intros output_file Hin Hidx Hne Hdir Hparent Hpre Hf Hm Hbad.
  unfold process_csv_file. fold output_file.
  unfold try_except, bind at 1, open_r. rewrite Hin, Hidx.
  unfold bind at 1. rewrite open_w_ok by done.
  unfold bind at 1, writerow.
  set (w1 := with_fs _ (with_fs _ w)).
  destruct (for_rows_plain output_file idx r1 r2 r3 pre (r :: post) Hpre w1
              [header ++ ["deletionDate"; "validStart"; "validEnd"]])
    as (w2 & Hrun & Hfs & Hout).
  { subst w1. cbn [fs with_fs]. rewrite lookup_insert_eq. by rewrite lookup_insert_eq. }
  destruct (process_row_bad_range output_file idx r1 r2 r3 r w2 Hf Hm Hbad)
    as (e & w3 & He & Hrow & Hfs3 & Hout3).
  unfold bind at 1. rewrite Hrun. cbn [for_rows]. unfold bind. rewrite Hrow.
  exists e. eexists. split; [done|].
  split; [destruct He as [-> | ->]; reflexivity|].
  destruct He as [-> | ->]; cbn [emit snd fs stdout]; rewrite Hfs3, Hfs, Hout3, Hout;
    (split; [by rewrite lookup_insert_eq | done]).
Qed.

Lemma process_csv_file_bad_range_witness :
  fs mixed_world !! "in.csv"
  = Some (File (["id"; "creationDate"]
                :: [["U0"; "n/a"]] ++ ["U1"; "2020-05-17T10:15:30.000+0000"]
                :: [["U2"; "later"]]))
  ∧ bad_range [10; 5] || bad_range [3; 5] || bad_range [2; 7] = true
  ∧ ∃ e w',
      process_csv_file "in.csv" "out" [10; 5] [3; 5] [2; 7] mixed_world = (Ok tt, w')
      ∧ fs w' !! "out/in.csv"
        = Some (File [["id"; "creationDate"; "deletionDate"; "validStart"; "validEnd"];
                      ["U0"; "n/a"]])
      ∧ stdout w' = [PrintError "in.csv" e].
Proof.
  split; [reflexivity|]. split; [reflexivity|].
  destruct (process_csv_file_bad_range_leaves_partial_output "in.csv" "out"
              [10; 5] [3; 5] [2; 7] ["id"; "creationDate"]
              ["U1"; "2020-05-17T10:15:30.000+0000"] [["U0"; "n/a"]]
              [["U2"; "later"]] 1 mixed_world
              ltac:(reflexivity) ltac:(reflexivity) ltac:(discriminate)
              ltac:(reflexivity) ltac:(reflexivity)
              ltac:(repeat constructor; right; reflexivity)
              ltac:(reflexivity) ltac:(vm_compute; eauto) ltac:(reflexivity))
    as (e & w' & _ & Hrun & Hfs & Hout).
  exists e, w'. auto.
Defined.

(** ** Exit statuses *)

Lemma no_exit_exits_with_1 {A} (c : M A) : no_exit c → exits_with_1 c.
Proof. intros Hc w n H. by destruct (Hc w n). Qed.

Lemma exits_with_1_bind {A B} (c : M A) (k : A → M B) :
  exits_with_1 c → (∀ a, exits_with_1 (k a)) → exits_with_1 (bind c k).
Proof.
  intros Hc Hk w n. unfold bind. specialize (Hc w n).
  destruct (c w) as [[a|e] w']; [apply Hk|]. cbn [fst] in *.
  intros [= ->]. by apply Hc.
Qed.

Lemma exits_with_1_sys_exit {A} : exits_with_1 (@sys_exit A 1).
Proof. intros w n [= <-]. done. Qed.

Lemma no_exit_print (line : string) : no_exit (print line).
Proof. done. Qed.

Lemma no_exit_input (prompt : string) : no_exit (input prompt).
Proof.
  unfold input. apply no_exit_bind; [done|]. intros _ w n. by destruct (stdin w).
Qed.

Lemma no_exit_get_range_input (prompt : string) (default : list Z) :
  no_exit (get_range_input prompt default).
Proof.
  unfold get_range_input. apply no_exit_bind; [apply no_exit_input|].
  intros line. destruct (Str.strip line); [done|].
  destruct (mapM Str.to_int _); [done|]. by apply no_exit_bind.
Qed.

Lemma no_exit_makedirs (p : string) : no_exit (makedirs p).
Proof.
  intros w n. unfold makedirs. destruct p as [|c p]; [done|].
  destruct (path.rstrip_slashes (String c p)); [done|].
  destruct (existsb _ _); [done|]. by destruct (is_file _ _).
Qed.

Lemma no_exit_process_csv_file (input_file od : string) (r1 r2 r3 : list Z) :
  no_exit (process_csv_file input_file od r1 r2 r3).
Proof.
  intros w n. by destruct (process_csv_file_returns input_file od r1 r2 r3 w) as [w' ->].
Qed.

Lemma no_exit_process_directory (ind od : string) (r1 r2 r3 : list Z) :
  no_exit (process_directory ind od r1 r2 r3).
Proof.
  unfold process_directory. apply no_exit_bind; [apply no_exit_makedirs|]. intros _.
  apply no_exit_bind.
  { intros w n. unfold listdir. destruct ind as [|c ind]; [done|].
    destruct (path.rstrip_slashes (String c ind)) as [|c' p]; [done|].
    by destruct (fs w !! String c' p) as [[|]|]. }
  intros entries. destruct (filter _ entries); [done|].
  apply no_exit_bind; [done|]. intros _ w n.
  by destruct (for_files_returns ind od r1 r2 r3 (s :: l) w) as [w' ->].
Qed.

Lemma exits_with_1_interactive (r1 r2 r3 : list Z) : exits_with_1 (interactive r1 r2 r3).
Proof.
  unfold interactive.
  apply exits_with_1_bind; [by apply no_exit_exits_with_1|]. intros _.
  apply exits_with_1_bind; [apply no_exit_exits_with_1, no_exit_input|]. intros line.
  apply exits_with_1_bind.
  { destruct (String.eqb (Str.strip line) "1").
    { apply no_exit_exits_with_1, no_exit_bind; [apply no_exit_input | done]. }
    destruct (String.eqb (Str.strip line) "2").
    { apply no_exit_exits_with_1, no_exit_bind; [apply no_exit_input | done]. }
    apply exits_with_1_bind; [by apply no_exit_exits_with_1|].
    intros _. apply exits_with_1_sys_exit. }
  intros [p isdir].
  apply exits_with_1_bind.
  { destruct p; [|by apply no_exit_exits_with_1].
    apply exits_with_1_bind; [by apply no_exit_exits_with_1|].
    intros _. apply exits_with_1_sys_exit. }
  intros _. apply no_exit_exits_with_1.
  apply no_exit_bind; [apply no_exit_input|]. intros answer.
  destruct (String.eqb _ "y"); [|done].
  repeat (apply no_exit_bind; [apply no_exit_get_range_input|]; intros ?).
  done.
Qed.

Lemma exits_with_1_main (input_path od : string) (is_directory : bool)
    (r1 r2 r3 : list Z) :
  exits_with_1 (main input_path od is_directory r1 r2 r3).
Proof.
  unfold main.
  apply exits_with_1_bind; [apply no_exit_exits_with_1, no_exit_makedirs|]. intros _.
  apply exits_with_1_bind; [by apply no_exit_exits_with_1|]. intros args. cbv zeta.
  apply exits_with_1_bind.
  { destruct (_ && _); [|by apply no_exit_exits_with_1].
    apply exits_with_1_bind; [by apply no_exit_exits_with_1|].
    intros _. apply exits_with_1_sys_exit. }
  intros _. apply exits_with_1_bind.
  { destruct input_path; [apply exits_with_1_interactive | by apply no_exit_exits_with_1]. }
  intros [[p isdir] [[a b] c]].
  destruct isdir; [apply no_exit_exits_with_1, no_exit_process_directory|].
  apply exits_with_1_bind; [by apply no_exit_exits_with_1|]. intros found.
  destruct found; [apply no_exit_exits_with_1, no_exit_process_csv_file|].
  apply exits_with_1_bind; [by apply no_exit_exits_with_1|].
  intros _. apply exits_with_1_sys_exit.
Qed.

(** X8. The process ends with status 0 or 1 and nothing else: every
    [sys.exit] in [main] and in what it calls has the code 1, and an
    uncaught exception gives 1 as well; the status is 0 exactly when
    [main] returns. *)
Theorem main_exit_status_is_0_or_1 (input_path output_directory : string)
    (is_directory : bool) (r1 r2 r3 : list Z) (w : World) :
  ((main input_path output_directory is_directory r1 r2 r3 w).1 = Ok tt
   ∧ exit_status (main input_path output_directory is_directory r1 r2 r3 w).1 = 0)
  ∨ ((main input_path output_directory is_directory r1 r2 r3 w).1 ≠ Ok tt
     ∧ exit_status (main input_path output_directory is_directory r1 r2 r3 w).1 = 1).
Proof.
  pose proof (exits_with_1_main input_path output_directory is_directory r1 r2 r3 w)
    as H.
  destruct (main input_path output_directory is_directory r1 r2 r3 w).1 as [[]|e].
  - left. done.
  - right. split; [done|]. destruct e; try done. cbn [exit_status]. by apply H.
Qed.

(** X9. In single-file mode, once the path exists, [main] always ends
    with status 0: whatever goes wrong while the file is processed (no
    creationDate column, unreadable file, a range that is rejected) is
    only printed. *)
Theorem main_single_file_status_0 (input_path output_directory : string)
    (r1 r2 r3 : list Z) (w w1 : World) :
  makedirs output_directory w = (Ok tt, w1) →
  both_flags (argv w) = false →
  input_path ≠ "" →
  is_file (fs w1) input_path || is_dir (fs w1) input_path = true →
  main input_path output_directory false r1 r2 r3 w
  = process_csv_file input_path output_directory r1 r2 r3 w1
  ∧ (main input_path output_directory false r1 r2 r3 w).1 = Ok tt
  ∧ exit_status (main input_path output_directory false r1 r2 r3 w).1 = 0.
Proof.
  intros Hmk Hflags Hne Hexists.
  assert (main input_path output_directory false r1 r2 r3 w
          = process_csv_file input_path output_directory r1 r2 r3 w1) as ->.
  { rewrite (main_unfold _ _ _ _ _ _ _ _ Hmk), Hflags.
    destruct input_path as [|c p]; [done|].
    unfold bind, ret, os_path_exists. by rewrite Hexists. }
  split; [done|].
  by destruct (process_csv_file_returns input_path output_directory r1 r2 r3 w1)
    as [w' ->].
Qed.

Lemma main_single_file_status_0_witness :
  makedirs "out" two_files_world = (Ok tt, with_fs <["out" := Dir]> two_files_world)
  ∧ both_flags (argv two_files_world) = false
  ∧ (main "in/b.csv" "out" false [5; 10] [3; 5] [2; 7] two_files_world).1 = Ok tt
  ∧ exit_status (main "in/b.csv" "out" false [5; 10] [3; 5] [2; 7] two_files_world).1
    = 0.
Proof.
  split; [reflexivity|]. split; [reflexivity|].
  exact (proj2 (main_single_file_status_0 "in/b.csv" "out" [5; 10] [3; 5] [2; 7]
                  two_files_world _ ltac:(reflexivity) ltac:(reflexivity)
                  ltac:(discriminate) ltac:(reflexivity))).
Defined.

(** ** Directories *)

(** X10. A directory without any entry whose name ends in [.csv] is
    reported and left alone: after creating the output directory,
    [process_directory] prints one line and returns, reading and writing
    no file. *)
Theorem process_directory_without_csv_files
    (input_directory output_directory : string) (r1 r2 r3 : list Z)
    (entries : list string) (w w1 : World) :
  makedirs output_directory w = (Ok tt, w1) →
  listdir input_directory w1 = (Ok entries, w1) →
  Forall (λ f, Str.endswith f ".csv" = false) entries →
  process_directory input_directory output_directory r1 r2 r3 w
  = (Ok tt, printed (Print ("No CSV files found in directory: " +:+ input_directory)) w1).
Proof.
  intros Hmk Hls Hnone. unfold process_directory, bind. rewrite Hmk, Hls.
  assert (filter (λ f, Is_true (Str.endswith f ".csv")) entries = []) as ->; [|done].
  clear Hls. induction Hnone as [|f entries Hf Hnone IH]; [done|].
  rewrite filter_cons_False; [exact IH|]. rewrite Hf. intros [].
Qed.

Lemma process_directory_without_csv_files_witness :
  makedirs "out" two_files_world = (Ok tt, with_fs <["out" := Dir]> two_files_world)
  ∧ listdir "out" (with_fs <["out" := Dir]> two_files_world)
    = (Ok [], with_fs <["out" := Dir]> two_files_world)
  ∧ process_directory "out" "out" [5; 10] [3; 5] [2; 7] two_files_world
    = (Ok tt, printed (Print "No CSV files found in directory: out")
                (with_fs <["out" := Dir]> two_files_world)).
Proof.
  split; [reflexivity|]. split; [vm_compute; reflexivity|].
  exact (process_directory_without_csv_files "out" "out" [5; 10] [3; 5] [2; 7] []
           two_files_world _ ltac:(reflexivity) ltac:(vm_compute; reflexivity)
           ltac:(constructor)).
Defined.

(** ** Dates, once more *)

(** X12. The rule for February written out in [generate_random_date]
    gives the same last day as [calendar.monthrange] gives for February:
    [is_leap_year] and the library's [isleap] agree on every year, negative
    years included. *)
Theorem february_rule_agrees_with_calendar (year : Z) :
  is_leap_year year = calendar.isleap year
  ∧ calendar.monthrange_ndays year 2 = Some (if is_leap_year year then 29 else 28).
Proof.
  assert (is_leap_year year = calendar.isleap year) as H.
  { unfold is_leap_year, calendar.isleap.
    destruct (Z.eqb_spec (year mod 4) 0) as [H4|H4];
      destruct (Z.eqb_spec (year mod 100) 0) as [H100|H100];
      destruct (Z.eqb_spec (year mod 400) 0) as [H400|H400]; try reflexivity.
    all: exfalso; apply H4.
    all: rewrite (Z.div_mod year 400) by lia; rewrite H400.
    all: replace (400 * (year / 400) + 0) with ((100 * (year / 400)) * 4) by lia.
    all: apply Z.mod_mul; lia. }
  split; [exact H|]. unfold calendar.monthrange_ndays. cbn. rewrite <- H.
  by destruct (is_leap_year year).
Qed.

Lemma date_of_length (year t1 t2 : Z) :
  String.length (date_of year t1 t2) = (String.length (Str.of_int year) + 6)%nat.
Proof.
  unfold date_of.
  destruct (format_02d_two_digits (month_of t1)) as (a & b & -> & _).
  { pose proof (month_of_range t1). lia. }
  destruct (format_02d_two_digits (day_of year t1 t2)) as (c & d & -> & _).
  { pose proof (day_of_range year t1 t2) as Hr.
    pose proof (max_day_of_spec year _ (month_of_range t1)). lia. }
  rewrite !str_length_app. cbn [String.length]. lia.
Qed.

Lemma stamp_of_four_characters (year t1 t2 : Z) (time_part : string) :
  String.length (Str.of_int year) = 4%nat →
  stamp_of year t1 t2 time_part = date_of year t1 t2 +:+ "T" +:+ time_part.
Proof.
  intros Hlen. unfold stamp_of.
  assert (Str.drop 5 (date_of year t1 t2)
          = Str.format_02d (month_of t1) +:+ "-" +:+ Str.format_02d (day_of year t1 t2))
    as ->.
  { unfold date_of. rewrite <- (str_app_assoc (Str.of_int year) "-").
    replace 5%nat with (String.length (Str.of_int year +:+ "-"))
      by (rewrite str_length_app, Hlen; done).
    apply str_drop_app_length. }
  unfold date_of. by rewrite !str_app_assoc.
Qed.

(** X13. For target years from 1000 to 9999 the re-composition in
    [generate_dates] changes nothing: each derived timestamp is the string
    that [generate_random_date] returned for its year, ten characters
    YYYY-MM-DD, followed by T and the time part. *)
Theorem generate_dates_keeps_random_dates
    (m : Match) (o1 o2 o3 creation_year : Z) (w : World) :
  Str.to_int (group1 m) = Some creation_year →
  1000 ≤ creation_year + o1 ≤ 9999 →
  1000 ≤ creation_year + o2 ≤ 9999 →
  1000 ≤ creation_year + o2 + o3 ≤ 9999 →
  ∃ d1 d2 d3,
    generate_random_date (creation_year + o1) w = (Ok d1, advance 2 w)
    ∧ generate_random_date (creation_year + o2) (advance 2 w) = (Ok d2, advance 4 w)
    ∧ generate_random_date (creation_year + o2 + o3) (advance 4 w)
      = (Ok d3, advance 6 w)
    ∧ generate_dates m o1 o2 o3 w
      = (Ok (d1 +:+ "T" +:+ group4 m, d2 +:+ "T" +:+ group4 m,
             d3 +:+ "T" +:+ group4 m), advance 6 w)
    ∧ String.length d1 = 10%nat ∧ String.length d2 = 10%nat
    ∧ String.length d3 = 10%nat.
Proof.
  intros Hcy H1 H2 H3.
  assert (∀ y, 1000 ≤ y ≤ 9999 → String.length (Str.of_int y) = 4%nat) as Hlen.
  { intros y Hy. apply of_int_length_4. by left. }
  eexists _, _, _. rewrite !generate_random_date_ok.
  split; [reflexivity|]. split; [reflexivity|]. split; [reflexivity|].
  split.
  - rewrite (generate_dates_ok _ _ _ _ _ _ Hcy).
    rewrite !stamp_of_four_characters by (by apply Hlen). done.
  - rewrite !date_of_length, !Hlen by done. done.
Qed.

Lemma generate_dates_keeps_random_dates_witness :
  Str.to_int (group1 sample_match) = Some 2020
  ∧ ∃ d1 d2 d3,
      generate_random_date 2025 sample_world = (Ok d1, advance 2 sample_world)
      ∧ generate_dates sample_match 5 3 2 sample_world
        = (Ok (d1 +:+ "T10:15:30.000+0000", d2 +:+ "T10:15:30.000+0000",
               d3 +:+ "T10:15:30.000+0000"), advance 6 sample_world).
Proof.
  split; [reflexivity|].
  destruct (generate_dates_keeps_random_dates sample_match 5 3 2 2020 sample_world
              ltac:(reflexivity) ltac:(lia) ltac:(lia) ltac:(lia))
    as (d1 & d2 & d3 & H1 & _ & _ & H & _).
  exists d1, d2, d3. split; [exact H1 | exact H].
Defined.

(** ** The pattern, once more *)

(** X14. A match of the timestamp pattern lies inside the field: it is
    the 28 characters that start at the reported position, so a field of
    fewer than 28 characters never matches and its row passes through
    unchanged. *)
Theorem re_search_match_within_field (field : string) :
  (∀ m, re_search pattern field = Some m →
        (m_start m + 28 ≤ String.length field)%nat
        ∧ m_text m = Str.take 28 (Str.drop (m_start m) field))
  ∧ ((String.length field < 28)%nat → re_search pattern field = None).
Proof.
  assert (∀ m, re_search pattern field = Some m →
               (m_start m + 28 ≤ String.length field)%nat
               ∧ m_text m = Str.take 28 (Str.drop (m_start m) field)) as H.
  { intros m Hm. destruct (re_search_spec _ _ Hm) as (Hhere & _ & _).
    destruct (pattern_match_length _ _ Hhere) as [Hl _].
    destruct (match_here_app _ _ _ Hhere) as (rest & Heq & _).
    pose proof (length_drop (m_start m) field) as Hd.
    rewrite Heq, str_length_app, Hl in Hd. split; [lia|].
    rewrite Heq, <- Hl. by rewrite str_take_app_length. }
  split; [exact H|]. intros Hshort.
  destruct (re_search pattern field) as [m|] eqn:Hm; [|done].
  destruct (H m eq_refl) as [Hlen _]. lia.
Qed.

(** ** Draws and messages of a successful run *)

Lemma process_row_draws (output_file : string) (idx : nat) (r : row)
    (dyr_min dyr_max vsr_min vsr_max ver_min ver_max : Z) (w : World) :
  dyr_min ≤ dyr_max → vsr_min ≤ vsr_max → ver_min ≤ ver_max →
  ∃ w', process_row output_file idx [dyr_min; dyr_max] [vsr_min; vsr_max]
          [ver_min; ver_max] r w = (Ok tt, w')
        ∧ cursor w' = ((if matches idx r then 9 else 0) + cursor w)%nat
        ∧ stdout w' = stdout w ∧ tape w' = tape w.
Proof.
  intros H1 H2 H3. unfold matches, has_field.
  destruct (Nat.leb_spec (length r) idx) as [Hle|Hlt]; cbn [negb andb].
  - exists w. by rewrite process_row_short.
  - destruct (re_search pattern (nth idx r "")) as [m|] eqn:Hm.
    + destruct (process_row_matched output_file idx r m _ _ _ _ _ _
                  Hlt Hm H1 H2 H3 w) as (cy & _ & _ & Hrun).
      cbv zeta in Hrun. eexists. split; [exact Hrun|]. done.
    + eexists. split; [by apply process_row_unmatched|]. done.
Qed.

Lemma for_rows_draws (output_file : string) (idx : nat)
    (dyr_min dyr_max vsr_min vsr_max ver_min ver_max : Z) (rows : list row) (w : World) :
  dyr_min ≤ dyr_max → vsr_min ≤ vsr_max → ver_min ≤ ver_max →
  ∃ w', for_rows (process_row output_file idx [dyr_min; dyr_max] [vsr_min; vsr_max]
                    [ver_min; ver_max]) rows w = (Ok tt, w')
        ∧ cursor w' = (9 * length (List.filter (matches idx) rows) + cursor w)%nat
        ∧ stdout w' = stdout w ∧ tape w' = tape w.
Proof.
  intros H1 H2 H3. revert w. induction rows as [|r rows IH]; intros w.
  - exists w. cbn [for_rows List.filter length]. split; [done|]. split; [lia|done].
  - cbn [for_rows List.filter]. unfold bind.
    destruct (process_row_draws output_file idx r _ _ _ _ _ _ w H1 H2 H3)
      as (w1 & -> & Hc1 & Ho1 & Ht1).
    destruct (IH w1) as (w' & -> & Hc & Ho & Ht).
    exists w'. split; [done|]. rewrite Hc, Hc1, Ho, Ho1, Ht, Ht1.
    split; [|done]. destruct (matches idx r); cbn [length]; lia.
Qed.

(** X15. A run that goes through draws exactly nine random numbers for
    every data row that matches (three offsets, three months, three days)
    and none for any other row, and it prints exactly one line, the
    "Processed" line with the input and the output path. *)
Theorem process_csv_file_draws_nine_per_match
    (input_file output_directory : string) (header : row) (rest : list row)
    (idx : nat) (dyr_min dyr_max vsr_min vsr_max ver_min ver_max : Z) (w : World) :
  let output_file := path.join output_directory (path.basename input_file) in
  fs w !! input_file = Some (File (header :: rest)) →
  index "creationDate" header = Some idx →
  output_file ≠ input_file →
  is_dir (fs w) output_file = false →
  parent_is_dir (fs w) output_file = true →
  dyr_min ≤ dyr_max → vsr_min ≤ vsr_max → ver_min ≤ ver_max →
  ∃ w',
    process_csv_file input_file output_directory [dyr_min; dyr_max]
      [vsr_min; vsr_max] [ver_min; ver_max] w = (Ok tt, w')
    ∧ cursor w' = (9 * length (List.filter (matches idx) rest) + cursor w)%nat
    ∧ stdout w'
      = stdout w ++ [Print ("Processed: " +:+ input_file +:+ " -> " +:+ output_file)].
Proof.
  intros output_file Hin Hidx Hne Hdir Hparent H1 H2 H3.
  unfold process_csv_file. fold output_file.
  unfold try_except, bind at 1, open_r. rewrite Hin, Hidx.
  unfold bind at 1. rewrite open_w_ok by done.
  unfold bind at 1, writerow.
  set (w1 := with_fs _ (with_fs _ w)).
  destruct (for_rows_draws output_file idx _ _ _ _ _ _ rest w1 H1 H2 H3)
    as (w' & Hrun & Hc & Ho & _).
  unfold bind. rewrite Hrun. unfold print, emit.
  eexists. split; [done|]. cbn [cursor stdout]. by rewrite Hc, Ho.
Qed.

Lemma process_csv_file_draws_nine_per_match_witness :
  fs mixed_world !! "in.csv"
  = Some (File [["id"; "creationDate"]; ["U0"; "n/a"];
                ["U1"; "2020-05-17T10:15:30.000+0000"]; ["U2"; "later"]])
  ∧ ∃ w',
      process_csv_file "in.csv" "out" [5; 10] [3; 5] [2; 7] mixed_world = (Ok tt, w')
      ∧ cursor w' = 9%nat
      ∧ stdout w' = [Print "Processed: in.csv -> out/in.csv"].
Proof.
  split; [reflexivity|].
  destruct (process_csv_file_draws_nine_per_match "in.csv" "out"
              ["id"; "creationDate"]
              [["U0"; "n/a"]; ["U1"; "2020-05-17T10:15:30.000+0000"]; ["U2"; "later"]]
              1 5 10 3 5 2 7 mixed_world
              ltac:(reflexivity) ltac:(reflexivity) ltac:(discriminate)
              ltac:(reflexivity) ltac:(reflexivity) ltac:(lia) ltac:(lia) ltac:(lia))
    as (w' & Hrun & Hc & Ho).
  exists w'. split; [exact Hrun|]. split; [exact Hc | exact Ho].
Defined.

(** X16. In single-file mode a path that does not exist ends the run
    with status 1 and the "File not found" line; this is found out after
    the output directory has been created, which is the only change to
    the file system. *)
Theorem main_file_not_found (input_path output_directory : string)
    (r1 r2 r3 : list Z) (w w1 : World) :
  makedirs output_directory w = (Ok tt, w1) →
  both_flags (argv w) = false →
  input_path ≠ "" →
  is_file (fs w1) input_path || is_dir (fs w1) input_path = false →
  main input_path output_directory false r1 r2 r3 w
  = (Raise (SystemExit 1), printed (Print ("File not found: " +:+ input_path)) w1)
  ∧ is_dir (fs w1) output_directory = true.
Proof.
  intros Hmk Hflags Hne Hexists.
  split; [|by destruct (makedirs_ok _ _ _ Hmk) as [? _]].
  rewrite (main_unfold _ _ _ _ _ _ _ _ Hmk), Hflags.
  destruct input_path as [|c p]; [done|].
  unfold bind, ret, os_path_exists. by rewrite Hexists.
Qed.

Lemma main_file_not_found_witness :
  makedirs "out" two_files_world = (Ok tt, with_fs <["out" := Dir]> two_files_world)
  ∧ main "in/c.csv" "out" false [5; 10] [3; 5] [2; 7] two_files_world
    = (Raise (SystemExit 1),
       printed (Print "File not found: in/c.csv")
         (with_fs <["out" := Dir]> two_files_world)).
Proof.
  split; [reflexivity|].
  exact (proj1 (main_file_not_found "in/c.csv" "out" [5; 10] [3; 5] [2; 7]
                  two_files_world _ ltac:(reflexivity) ltac:(reflexivity)
                  ltac:(discriminate) ltac:(reflexivity))).
Defined.
